(** * LeNet-5 on MNIST: a shallow embedding of [LeNet-5.py]

    The script wires PyTorch calls together: it fixes its configuration,
    builds the [LeNet5] module, an SGD optimizer and a plateau scheduler,
    trains, and evaluates.  The embedding keeps that structure:

    - tensors carry their shape and a row-major list of scalars; floating
      point numbers are idealised as rationals ([Q]);
    - Python objects that are mutated in place (parameter tensors, their
      gradients, the optimizer's learning rate, the default random
      generator) live in a [World] that every operation threads through
      the [Torch] monad; exceptions are the [Raise] results of that monad;
    - the numerical kernels the script takes from the library and that have
      no rational counterpart (tanh, the parameter initialiser, the
      cross-entropy value, automatic differentiation) are the fields of the
      [TorchLib] class, so every theorem holds for any implementation. *)

From Stdlib Require Import QArith Qminmax ZifyNat Lqa.
From stdpp Require Import base list strings.

Set Default Proof Using "Type".
Local Open Scope nat_scope.

(** ** Tensors *)

Record Tensor := mkTensor { shape : list nat; data : list Q }.

(** Number of elements a shape describes. *)
Definition numel (s : list nat) : nat := foldr Nat.mul 1 s.

Definition well_formed (t : Tensor) : Prop := length (data t) = numel (shape t).

(** Row-major element access; the default is never read on a well-formed
    tensor indexed within its shape. *)
Definition item (t : Tensor) (i : nat) : Q := nth i (data t) 0%Q.

Definition tabulate {A} (n : nat) (f : nat → A) : list A := map f (seq 0 n).

Definition Qsum (l : list Q) : Q := foldr Qplus 0%Q l.

Definition Qsum_upto (n : nat) (f : nat → Q) : Q := Qsum (tabulate n f).

Definition Qmaximum (d : Q) (l : list Q) : Q := foldr Qmax d l.

Definition zeros (s : list nat) : Tensor := mkTensor s (replicate (numel s) 0%Q).
Arguments zeros : simpl never.

(** ** Exceptions and the state of the interpreter *)

Inductive exn := RuntimeError | IndexError | ValueError.

Inductive result (A : Type) :=
| Ok (a : A)
| Raise (e : exn).
Arguments Ok {A} a.
Arguments Raise {A} e.

(** [rng] is the state of the default generator ([set_all_seeds] writes it),
    [params] holds every [nn.Parameter] tensor, [grads] their [.grad]
    fields, and [lr] the learning rate of the optimizer's parameter group.
    A module or an optimizer refers to a parameter by its index in
    [params]: two holders of the same index alias the same tensor. *)
Record World := mkWorld {
  rng : N;
  params : list Tensor;
  grads : list Tensor;
  lr : Q
}.

Definition Torch (A : Type) : Type := World → result A * World.

Definition ret {A} (a : A) : Torch A := λ w, (Ok a, w).

Definition raise {A} (e : exn) : Torch A := λ w, (Raise e, w).

Definition bind {A B} (m : Torch A) (k : A → Torch B) : Torch B :=
  λ w, match m w with
       | (Ok a, w') => k a w'
       | (Raise e, w') => (Raise e, w')
       end.

Definition lift {A} (r : result A) : Torch A := λ w, (r, w).

Definition get_world : Torch World := λ w, (Ok w, w).

Definition put_world (w' : World) : Torch unit := λ _, (Ok tt, w').

Declare Scope torch_scope.
Delimit Scope torch_scope with torch.
Notation "x <- m ;; k" := (bind m (λ x, k))
  (at level 100, m at next level, right associativity) : torch_scope.
Notation "m ;;; k" := (bind m (λ _, k))
  (at level 100, right associativity) : torch_scope.
Local Open Scope torch_scope.

(** A [for] loop that threads an accumulator. *)
Fixpoint foldM {A B} (f : B → A → Torch B) (acc : B) (l : list A) : Torch B :=
  match l with
  | [] => ret acc
  | a :: l' => acc' <- f acc a ;; foldM f acc' l'
  end.

(** Dereferencing a parameter.  Python references cannot dangle, so the
    default of [nth] stands for a case that a constructed module never
    reaches (see [LeNet5_init_allocated]). *)
Definition load (r : nat) : Torch Tensor :=
  w <- get_world ;; ret (nth r (params w) (zeros [])).

(** ** Layer kernels (pure functions on tensors) *)

(** [torch.nn.functional.conv2d] with stride 1, no padding, square kernel:
    [out(n,o,i,j) = bias(o) + sum_{c,di,dj} weight(o,c,di,dj) * x(n,c,i+di,j+dj)]. *)
Definition conv2d (in_channels out_channels k : nat) (weight bias x : Tensor)
  : result Tensor :=
  match shape x with
  | [n; c; h; w] =>
      if bool_decide (c = in_channels) && bool_decide (k ≤ h) && bool_decide (k ≤ w)
      then
        let h' := h - k + 1 in
        let w' := w - k + 1 in
        Ok (mkTensor [n; out_channels; h'; w']
              (tabulate (n * (out_channels * (h' * w')))
                 (λ idx,
                    let j := idx mod w' in
                    let i := (idx / w') mod h' in
                    let o := (idx / (w' * h')) mod out_channels in
                    let b := idx / (w' * h' * out_channels) in
                    (item bias o +
                     Qsum_upto c (λ ci,
                       Qsum_upto k (λ di,
                         Qsum_upto k (λ dj,
                           item weight (((o * c + ci) * k + di) * k + dj) *
                           item x (((b * c + ci) * h + (i + di)) * w + (j + dj))))))%Q)))
      else Raise RuntimeError
  | _ => Raise RuntimeError
  end.

(** [torch.nn.functional.max_pool2d] with [stride = kernel_size], no padding,
    floor mode: the output side is [h / k], and an output side of 0 is
    rejected. *)
Definition max_pool2d (k : nat) (x : Tensor) : result Tensor :=
  match shape x with
  | [n; c; h; w] =>
      if bool_decide (1 ≤ k) && bool_decide (k ≤ h) && bool_decide (k ≤ w)
      then
        let h' := h / k in
        let w' := w / k in
        Ok (mkTensor [n; c; h'; w']
              (tabulate (n * (c * (h' * w')))
                 (λ idx,
                    let j := idx mod w' in
                    let i := (idx / w') mod h' in
                    let plane := idx / (w' * h') in
                    Qmaximum (item x ((plane * h + i * k) * w + j * k))
                      (tabulate (k * k)
                         (λ d, item x ((plane * h + (i * k + d / k)) * w
                                        + (j * k + d mod k)))))))
      else Raise RuntimeError
  | _ => Raise RuntimeError
  end.

(** [torch.flatten(x, 1)]: every dimension after the first is merged; the
    storage is unchanged.  A tensor without a dimension 1 is rejected. *)
Definition flatten1 (x : Tensor) : result Tensor :=
  match shape x with
  | d0 :: d1 :: rest => Ok (mkTensor [d0; numel (d1 :: rest)] (data x))
  | _ => Raise IndexError
  end.

(** [torch.nn.functional.linear]: [out(r,o) = bias(o) + sum_i weight(o,i) * x(r,i)]
    on the last dimension, which must equal [in_features]. *)
Definition linear (in_features out_features : nat) (weight bias x : Tensor)
  : result Tensor :=
  match reverse (shape x) with
  | d :: lead =>
      if bool_decide (d = in_features)
      then
        let rows := numel lead in
        Ok (mkTensor (reverse lead ++ [out_features])
              (tabulate (rows * out_features)
                 (λ idx,
                    let o := idx mod out_features in
                    let r := idx / out_features in
                    (item bias o +
                     Qsum_upto in_features (λ i,
                       item weight (o * in_features + i) *
                       item x (r * in_features + i)))%Q)))
      else Raise RuntimeError
  | [] => Raise RuntimeError
  end.

Definition map_tensor (f : Q → Q) (x : Tensor) : Tensor :=
  mkTensor (shape x) (map f (data x)).

(** ** Modules *)

(** The members of [torch.nn] the script instantiates.  [weight] and [bias]
    are references into [params]. *)
Inductive Module_ :=
| Conv2d (in_channels out_channels kernel_size : nat) (weight bias : nat)
| Tanh
| MaxPool2d (kernel_size : nat)
| Linear (in_features out_features : nat) (weight bias : nat).

Record LeNet5 := mkLeNet5 {
  grayscale : bool;
  num_classes : nat;
  features : list Module_;
  classifier : list Module_
}.

(** What the script takes from the numerical library. *)
Class TorchLib := {
  (** the activation of [torch.nn.Tanh], elementwise *)
  tanh : Q → Q;
  (** the default initialiser: a tensor of the given shape drawn from the
      generator, and the generator's next state *)
  sample : N → list nat → Tensor * N;
  (** value of [torch.nn.functional.cross_entropy] on well-shaped arguments *)
  cross_entropy_value : Tensor → list nat → Q;
  (** [loss.backward()]: the gradient of every parameter, from the module,
      the parameters, the input batch and the labels *)
  autograd : LeNet5 → list Tensor → Tensor → list nat → list Tensor
}.

Section Program.
Context {torch : TorchLib}.

(** [torch.nn.Parameter] creation: draws from the generator and allocates. *)
Definition new_parameter (s : list nat) : Torch nat :=
  w <- get_world ;;
  let drawn := sample (rng w) s in
  put_world (mkWorld drawn.2 (params w ++ [drawn.1])
                     (grads w ++ [zeros s]) (lr w)) ;;;
  ret (length (params w)).

Definition Conv2d_init (in_channels out_channels kernel_size : nat) : Torch Module_ :=
  weight <- new_parameter [out_channels; in_channels; kernel_size; kernel_size] ;;
  bias <- new_parameter [out_channels] ;;
  ret (Conv2d in_channels out_channels kernel_size weight bias).

Definition Linear_init (in_features out_features : nat) : Torch Module_ :=
  weight <- new_parameter [out_features; in_features] ;;
  bias <- new_parameter [out_features] ;;
  ret (Linear in_features out_features weight bias).

(** [LeNet5.__init__(self, num_classes, grayscale=False)]. *)
Definition LeNet5_init (num_classes : nat) (grayscale : option bool) : Torch LeNet5 :=
  let grayscale := default false grayscale in
  let in_channels := if grayscale then 1 else 3 in
  conv1 <- Conv2d_init in_channels 6 5 ;;
  conv2 <- Conv2d_init 6 16 5 ;;
  fc1 <- Linear_init (16 * 5 * 5) 120 ;;
  fc2 <- Linear_init 120 84 ;;
  fc3 <- Linear_init 84 num_classes ;;
  ret (mkLeNet5 grayscale num_classes
         [conv1; Tanh; MaxPool2d 2; conv2; Tanh; MaxPool2d 2]
         [fc1; Tanh; fc2; Tanh; fc3]).

(** [module(x)] for one member of a [Sequential]. *)
Definition Module_forward (m : Module_) (x : Tensor) : Torch Tensor :=
  match m with
  | Conv2d cin cout k wr br =>
      weight <- load wr ;; bias <- load br ;;
      lift (conv2d cin cout k weight bias x)
  | Tanh => ret (map_tensor tanh x)
  | MaxPool2d k => lift (max_pool2d k x)
  | Linear fin fout wr br =>
      weight <- load wr ;; bias <- load br ;;
      lift (linear fin fout weight bias x)
  end.

(** [torch.nn.Sequential.forward]: the members in order. *)
Fixpoint Sequential_forward (ms : list Module_) (x : Tensor) : Torch Tensor :=
  match ms with
  | [] => ret x
  | m :: ms' => y <- Module_forward m x ;; Sequential_forward ms' y
  end.

(** [LeNet5.forward(self, x)]. *)
Definition forward (self : LeNet5) (x : Tensor) : Torch Tensor :=
  x <- Sequential_forward (features self) x ;;
  x <- lift (flatten1 x) ;;
  logits <- Sequential_forward (classifier self) x ;;
  ret logits.

(** ** The optimizer: [torch.optim.SGD(model.parameters(), lr=...)] *)

Definition Module_parameters (m : Module_) : list nat :=
  match m with
  | Conv2d _ _ _ wr br | Linear _ _ wr br => [wr; br]
  | Tanh | MaxPool2d _ => []
  end.

(** [model.parameters()], as references. *)
Definition parameters (self : LeNet5) : list nat :=
  concat (map Module_parameters (features self ++ classifier self)).

Record SGD := mkSGD { param_refs : list nat }.

Definition set_lr (l : Q) : Torch unit :=
  w <- get_world ;; put_world (mkWorld (rng w) (params w) (grads w) l).

Definition SGD_init (ps : list nat) (lr0 : Q) : Torch SGD :=
  set_lr lr0 ;;; ret (mkSGD ps).

(** Plain SGD (no momentum, no weight decay): [p <- p - lr * p.grad]. *)
Definition sgd_update (l : Q) (p g : Tensor) : Tensor :=
  mkTensor (shape p)
    (tabulate (length (data p)) (λ i, (item p i - l * item g i)%Q)).

Definition SGD_step (opt : SGD) : Torch unit :=
  w <- get_world ;;
  put_world
    (mkWorld (rng w)
       (foldl (λ ps r,
                 match ps !! r with
                 | Some p => <[r := sgd_update (lr w) p (nth r (grads w) (zeros []))]> ps
                 | None => ps
                 end)
              (params w) (param_refs opt))
       (grads w) (lr w)).

(** [loss.backward()]: fills the [.grad] fields; parameters are read only. *)
Definition backward (self : LeNet5) (x : Tensor) (targets : list nat) : Torch unit :=
  w <- get_world ;;
  put_world (mkWorld (rng w) (params w) (autograd self (params w) x targets) (lr w)).

(** ** The scheduler: [torch.optim.lr_scheduler.ReduceLROnPlateau] *)

Inductive Mode := ModeMin | ModeMax.

(** [best = None] is the initial [-inf] (mode max) or [+inf] (mode min). *)
Record ReduceLROnPlateau := mkReduceLROnPlateau {
  factor : Q;
  mode : Mode;
  patience : nat;
  threshold : Q;
  cooldown : nat;
  min_lr : Q;
  eps : Q;
  best : option Q;
  num_bad_epochs : nat;
  cooldown_counter : nat;
  last_epoch : nat
}.

(** The constructor with the library's defaults: [patience=10],
    [threshold=1e-4] (relative), [cooldown=0], [min_lr=0], [eps=1e-8]. *)
Definition ReduceLROnPlateau_init (factor : Q) (mode : Mode) : ReduceLROnPlateau :=
  mkReduceLROnPlateau factor mode 10 (1 # 10000) 0 0 (1 # 100000000) None 0 0 0.

Definition is_better (s : ReduceLROnPlateau) (a : Q) : bool :=
  match best s with
  | None => true
  | Some b =>
      match mode s with
      | ModeMax => negb (Qle_bool a (b * (threshold s + 1)))
      | ModeMin => negb (Qle_bool (b * (1 - threshold s)) a)
      end
  end.

(** [_reduce_lr]: [new_lr = max(old_lr * factor, min_lr)], written back only
    when the decrease exceeds [eps]. *)
Definition reduce_lr (s : ReduceLROnPlateau) : Torch unit :=
  w <- get_world ;;
  let old_lr := lr w in
  let new_lr := Qmax (old_lr * factor s) (min_lr s) in
  if negb (Qle_bool (old_lr - new_lr) (eps s)) then set_lr new_lr else ret tt.

(** [scheduler.step(metrics)]. *)
Definition ReduceLROnPlateau_step (s : ReduceLROnPlateau) (metrics : Q)
  : Torch ReduceLROnPlateau :=
  let epoch := last_epoch s + 1 in
  let better := is_better s metrics in
  let best1 := if better then Some metrics else best s in
  let bad1 := if better then 0 else num_bad_epochs s + 1 in
  let in_cooldown := bool_decide (0 < cooldown_counter s) in
  let counter2 := if in_cooldown then cooldown_counter s - 1 else cooldown_counter s in
  let bad2 := if in_cooldown then 0 else bad1 in
  if bool_decide (patience s < bad2)
  then
    reduce_lr s ;;;
    ret (mkReduceLROnPlateau (factor s) (mode s) (patience s) (threshold s)
           (cooldown s) (min_lr s) (eps s) best1 0 (cooldown s) epoch)
  else
    ret (mkReduceLROnPlateau (factor s) (mode s) (patience s) (threshold s)
           (cooldown s) (min_lr s) (eps s) best1 bad2 counter2 epoch).

(** ** Helpers of the repository that are not part of the sources *)

(** A data loader: a finite, restartable sequence of (image batch, label
    batch) pairs. *)
Definition DataLoader : Type := list (Tensor * list nat).

(** [torch.nn.functional.cross_entropy(logits, targets)]: the batch sizes
    must agree and every target must index a class. *)
Definition cross_entropy (logits : Tensor) (targets : list nat) : result Q :=
  match shape logits with
  | [n; c] =>
      if negb (bool_decide (length targets = n)) then Raise ValueError
      else if forallb (λ y, bool_decide (y < c)) targets
           then Ok (cross_entropy_value logits targets)
           else Raise IndexError
  | _ => Raise RuntimeError
  end.

(** Index of the first maximal entry of a non-empty row. *)
Fixpoint argmax_from (i besti : nat) (bestv : Q) (l : list Q) : nat :=
  match l with
  | [] => besti
  | v :: l' =>
      if Qle_bool v bestv then argmax_from (S i) besti bestv l'
      else argmax_from (S i) i v l'
  end.

Definition argmax (l : list Q) : nat :=
  match l with
  | [] => 0
  | v :: l' => argmax_from 1 0 v l'
  end.

(** [torch.max(logits, 1)], indices only: one predicted label per row. *)
Definition predicted_labels (logits : Tensor) : result (list nat) :=
  match shape logits with
  | [n; c] =>
      if bool_decide (c = 0) then Raise IndexError
      else Ok (tabulate n (λ r, argmax (tabulate c (λ o, item logits (r * c + o)))))
  | _ => Raise IndexError
  end.

Definition count_equal (predicted targets : list nat) : nat :=
  length (filter (λ pt, pt.1 = pt.2) (zip predicted targets)).

(** Modelled from the spec: [compute_accuracy] of [helper_evaluation], which
    is not part of the sources.  Spec 4.2: accuracy of the model on a batch
    source, evaluated without gradient computation; in percent.  On an
    empty source the rational quotient is 0 where floating point gives nan. *)
Definition compute_accuracy (model : LeNet5) (loader : DataLoader) : Torch Q :=
  counts <- foldM (λ (acc : nat * nat) (batch : Tensor * list nat),
                     logits <- forward model batch.1 ;;
                     predicted <- lift (predicted_labels logits) ;;
                     if bool_decide (length predicted = length batch.2)
                     then ret (acc.1 + count_equal predicted batch.2,
                               acc.2 + length batch.2)
                     else raise RuntimeError)
                  (0, 0) loader ;;
  ret (inject_Z (Z.of_nat counts.1) / inject_Z (Z.of_nat counts.2) * 100)%Q.

(** Modelled from the spec: the per-batch transition of [train_model]
    (spec 4.2): forward pass, cross-entropy loss, backward pass, optimizer
    step; the loss is what the caller appends to the history. *)
Definition train_batch (model : LeNet5) (optimizer : SGD)
    (batch : Tensor * list nat) : Torch Q :=
  logits <- forward model batch.1 ;;
  loss <- lift (cross_entropy logits batch.2) ;;
  backward model batch.1 batch.2 ;;;
  SGD_step optimizer ;;;
  ret loss.

Record History := mkHistory {
  minibatch_loss_list : list Q;
  train_acc_list : list Q;
  valid_acc_list : list Q
}.

(** Modelled from the spec: the per-epoch transition of [train_model]
    (spec 4.2): every batch of the training source, then the accuracies on
    the training and validation sources, both appended, then the plateau
    schedule stepped on the validation accuracy when the caller handed a
    scheduler over. *)
Definition train_epoch (model : LeNet5) (train_loader valid_loader : DataLoader)
    (optimizer : SGD) (st : History * option ReduceLROnPlateau)
  : Torch (History * option ReduceLROnPlateau) :=
  losses <- foldM (λ (losses : list Q) batch,
                     loss <- train_batch model optimizer batch ;;
                     ret (losses ++ [loss]))
                  (minibatch_loss_list st.1) train_loader ;;
  train_acc <- compute_accuracy model train_loader ;;
  valid_acc <- compute_accuracy model valid_loader ;;
  scheduler <- match st.2 with
               | Some s => s' <- ReduceLROnPlateau_step s valid_acc ;; ret (Some s')
               | None => ret None
               end ;;
  ret (mkHistory losses (train_acc_list st.1 ++ [train_acc])
         (valid_acc_list st.1 ++ [valid_acc]), scheduler).

Inductive Device := Cpu | Cuda (index : nat).

(** Modelled from the spec: [train_model] of [helper_train], which is not
    part of the sources.  Spec 4.2 and 6: a fixed number of epochs over the
    batch sources, returning the three histories.  The device and the
    logging interval only affect placement and console output.  The
    scheduler is an optional argument: a caller that passes none gets no
    schedule. *)
Definition train_model (model : LeNet5) (num_epochs : nat)
    (train_loader valid_loader test_loader : DataLoader) (optimizer : SGD)
    (device : Device) (logging_interval : nat)
    (scheduler : option ReduceLROnPlateau) : Torch History :=
  st <- foldM (λ st (_ : nat), train_epoch model train_loader valid_loader optimizer st)
              (mkHistory [] [] [], scheduler) (seq 0 num_epochs) ;;
  ret st.1.

(** [mat[target][predicted] += 1] on a list of rows. *)
Definition count_pair (mat : list (list nat)) (target predicted : nat)
  : result (list (list nat)) :=
  match mat !! target with
  | Some row =>
      match row !! predicted with
      | Some v => Ok (<[target := <[predicted := S v]> row]> mat)
      | None => Raise IndexError
      end
  | None => Raise IndexError
  end.

Fixpoint count_pairs (mat : list (list nat)) (pairs : list (nat * nat))
  : result (list (list nat)) :=
  match pairs with
  | [] => Ok mat
  | (t, p) :: pairs' =>
      match count_pair mat t p with
      | Ok mat' => count_pairs mat' pairs'
      | Raise e => Raise e
      end
  end.

(** Modelled from the spec: [compute_confusion_matrix] of
    [helper_evaluation], which is not part of the sources.  Spec 4.3: the
    model is run over all batches and predicted-vs-actual label counts are
    accumulated into a 10x10 matrix; rows are indexed by the actual class. *)
Definition compute_confusion_matrix (model : LeNet5) (data_loader : DataLoader)
    (device : Device) : Torch (list (list nat)) :=
  foldM (λ mat (batch : Tensor * list nat),
           logits <- forward model batch.1 ;;
           predicted <- lift (predicted_labels logits) ;;
           if bool_decide (length predicted = length batch.2)
           then lift (count_pairs mat (zip batch.2 predicted))
           else raise RuntimeError)
        (replicate 10 (replicate 10 0)) data_loader.

(** ** The script *)

Definition RANDOM_SEED : N := 123.
Definition BATCH_SIZE : nat := 256.
Definition NUM_EPOCHS : nat := 15.

(** [torch.device('cuda:0' if torch.cuda.is_available() else 'cpu')]. *)
Definition DEVICE (cuda_is_available : bool) : Device :=
  if cuda_is_available then Cuda 0 else Cpu.

(** [set_all_seeds(seed)] seeds the generators. *)
Definition set_all_seeds (seed : N) : Torch unit :=
  w <- get_world ;; put_world (mkWorld seed (params w) (grads w) (lr w)).

Record Settings := mkSettings {
  settings_seed : N;
  settings_batch_size : nat;
  settings_num_epochs : nat;
  settings_device : Device
}.

(** The configuration block at the top of the script.  [argv] is the
    process's argument vector; the script never reads it. *)
Definition settings (argv : list string) (cuda_is_available : bool) : Settings :=
  mkSettings RANDOM_SEED BATCH_SIZE NUM_EPOCHS (DEVICE cuda_is_available).

(** [model = LeNet5(grayscale=True, num_classes=10)]. *)
Definition model : Torch LeNet5 := LeNet5_init 10 (Some true).

(** The script from top to bottom, plotting and logging left out (they
    consume values and feed nothing back).  [get_dataloaders_mnist] is the
    dataset provider, given its batch size. *)
Definition main (argv : list string) (cuda_is_available : bool)
    (get_dataloaders_mnist : nat → DataLoader * DataLoader * DataLoader)
  : Torch (History * list (list nat)) :=
  set_all_seeds RANDOM_SEED ;;;
  let loaders := get_dataloaders_mnist BATCH_SIZE in
  let train_loader := loaders.1.1 in
  let valid_loader := loaders.1.2 in
  let test_loader := loaders.2 in
  model <- model ;;
  optimizer <- SGD_init (parameters model) (1 # 10) ;;
  let scheduler := ReduceLROnPlateau_init (1 # 10) ModeMax in
  history <- train_model model NUM_EPOCHS train_loader valid_loader test_loader
               optimizer (DEVICE cuda_is_available) 100 None ;;
  mat <- compute_confusion_matrix model test_loader Cpu ;;
  ret (history, mat).

End Program.

(** ** A reference instance of the library interface

    Used to run the definitions on concrete inputs: a clamp to [-1, 1]
    stands for tanh, parameters are initialised to zero, the loss value is
    the number of examples and gradients vanish. *)
Module Reference.

Definition hard_tanh (x : Q) : Q := Qmax (-1) (Qmin 1 x).

#[export] Instance lib : TorchLib := {
  tanh := hard_tanh;
  sample g s := (zeros s, N.succ g);
  cross_entropy_value _ targets := inject_Z (Z.of_nat (length targets));
  autograd _ ps _ _ := map (λ p, zeros (shape p)) ps
}.

Definition world0 : World := mkWorld 0 [] [] 0.

(** The module [LeNet5(grayscale=True, num_classes=10)] builds in [world0]
    and the world it leaves. *)
Definition lenet : LeNet5 :=
  mkLeNet5 true 10
    [Conv2d 1 6 5 0 1; Tanh; MaxPool2d 2; Conv2d 6 16 5 2 3; Tanh; MaxPool2d 2]
    [Linear (16 * 5 * 5) 120 4 5; Tanh; Linear 120 84 6 7; Tanh; Linear 84 10 8 9].

Definition parameter_shapes : list (list nat) :=
  [[6; 1; 5; 5]; [6]; [16; 6; 5; 5]; [16]; [120; 16 * 5 * 5]; [120];
   [84; 120]; [84]; [10; 84]; [10]].

Definition world1 : World :=
  mkWorld 10 (map zeros parameter_shapes) (map zeros parameter_shapes) 0.

(** Two images with their labels, and a loader of two such batches. *)
Definition batch0 : Tensor * list nat := (zeros [2; 1; 32; 32], [3; 7]).

Definition loader0 : list (Tensor * list nat) := [batch0; batch0].

End Reference.

(** ** Shapes of the architecture *)

(** A module without its parameter references. *)
Inductive Layer :=
| ConvL (in_channels out_channels kernel_size : nat)
| TanhL
| PoolL (kernel_size : nat)
| LinearL (in_features out_features : nat).

Definition Module_layer (m : Module_) : Layer :=
  match m with
  | Conv2d cin cout k _ _ => ConvL cin cout k
  | Tanh => TanhL
  | MaxPool2d k => PoolL k
  | Linear fin fout _ _ => LinearL fin fout
  end.

Definition architecture (self : LeNet5) : list Layer * list Layer :=
  (map Module_layer (features self), map Module_layer (classifier self)).

(** [in_channels] of [self.features[0]]. *)
Definition conv1_in_channels (self : LeNet5) : option nat :=
  match features self with
  | Conv2d cin _ _ _ _ :: _ => Some cin
  | _ => None
  end.

(** The layers [LeNet5.__init__] lists, for the number of classes and the
    grayscale flag it was called with. *)
Definition LeNet5_architecture (num_classes : nat) (grayscale : bool)
  : list Layer * list Layer :=
  ([ConvL (if grayscale then 1 else 3) 6 5; TanhL; PoolL 2;
    ConvL 6 16 5; TanhL; PoolL 2],
   [LinearL 400 120; TanhL; LinearL 120 84; TanhL; LinearL 84 num_classes]).

(** Side of the feature map as a function of the side of the image:
    5x5 convolution, 2x2 pooling, 5x5 convolution, 2x2 pooling. *)
Definition feature_side (h : nat) : nat := ((h - 5 + 1) / 2 - 5 + 1) / 2.

(** A batch the model trained for [num_classes] classes on [in_channels]
    channels accepts: 32x32 images, one label per image, labels in range. *)
Definition valid_batch (in_channels num_classes : nat) (batch : Tensor * list nat) : Prop :=
  shape batch.1 = [length batch.2; in_channels; 32; 32] ∧
  Forall (λ y, y < num_classes) batch.2.

(** The operation leaves the learning rate as it found it, whether it
    returns or raises. *)
Definition preserves_lr {A} (m : Torch A) : Prop := ∀ w, lr (m w).2 = lr w.

Definition row_sum (mat : list (list nat)) (r : nat) : nat :=
  sum_list (default [] (mat !! r)).

Definition total_sum (mat : list (list nat)) : nat := sum_list (sum_list <$> mat).

(** [rows] rows of [cols] counters each. *)
Definition matrix_shape (rows cols : nat) (mat : list (list nat)) : Prop :=
  length mat = rows ∧ Forall (λ row, length row = cols) mat.

Definition count_class (r : nat) (targets : list nat) : nat :=
  length (filter (λ y, y = r) targets).

Definition all_targets (loader : DataLoader) : list nat := concat (map snd loader).

(** ** The input pipeline: [resize_transform] *)

(** An 8-bit grayscale image, as the dataset stores it. *)
Record Image := mkImage {
  height : nat;
  width : nat;
  pixels : list Byte.byte
}.

(** [torchvision.transforms.ToTensor] on such an image: a [1 x H x W] tensor
    of the intensities divided by 255. *)
Definition ToTensor (img : Image) : Tensor :=
  mkTensor [1; height img; width img]
    (map (λ b, (inject_Z (Z.of_N (Byte.to_N b)) / 255)%Q) (pixels img)).

(** A per-channel list of [len] values fits [c] channels when it has one
    value (broadcast) or one per channel. *)
Definition broadcastable (len c : nat) : bool :=
  bool_decide (len = 1) || bool_decide (len = c).

Definition channel_value (l : list Q) (ch : nat) : Q :=
  nth (if bool_decide (length l = 1) then 0 else ch) l 0%Q.

(** [torchvision.transforms.Normalize(mean, std)]:
    [out(c,i,j) = (x(c,i,j) - mean(c)) / std(c)].  The tensor needs at least
    three dimensions and no [std] may be 0 ([ValueError] otherwise); [mean]
    and [std] must broadcast against the channels. *)
Definition Normalize (mean std : list Q) (x : Tensor) : result Tensor :=
  match reverse (shape x) with
  | w :: h :: c :: _ =>
      if existsb (λ s, Qeq_bool s 0) std then Raise ValueError
      else if negb (broadcastable (length mean) c && broadcastable (length std) c)
           then Raise RuntimeError
           else Ok (mkTensor (shape x)
                      (imap (λ idx v,
                               let ch := (idx / (h * w)) mod c in
                               ((v - channel_value mean ch) / channel_value std ch)%Q)
                            (data x)))
  | _ => Raise ValueError
  end.

(** [resize_transform = Compose([Resize((32,32)), ToTensor(),
    Normalize((0.5,), (0.5,))])], applied to one image.  [Resize] is the
    library's interpolation, given its target size. *)
Definition resize_transform (Resize : nat * nat → Image → Image) (img : Image)
  : result Tensor :=
  Normalize [1 # 2] [1 # 2] (ToTensor (Resize (32, 32) img)).

(** ** Auxiliary notions for the optimizer and the scheduler *)


(** The sizes of single images the feature extractor reduces to 25
    positions. *)
Definition accepted_size (h w : nat) : Prop :=
  (32 ≤ h ≤ 35 ∧ 32 ≤ w ≤ 35) ∨
  (16 ≤ h ≤ 19 ∧ 112 ≤ w ≤ 115) ∨
  (112 ≤ h ≤ 115 ∧ 16 ≤ w ≤ 19).

(** Data for concrete instances of the input pipeline. *)
Module ReferenceData.

(** A stand-in for the interpolation: a black image of the target size. *)
Definition black (size : nat * nat) (img : Image) : Image :=
  mkImage size.1 size.2 (replicate (size.1 * size.2) Byte.x00).

Definition digit : Image := mkImage 2 2 [Byte.x00; Byte.xff; Byte.x80; Byte.x40].

(** What the transform makes of a black 32 by 32 image. *)
Definition normalized_black : Tensor :=
  mkTensor [1; 32; 32] (replicate (32 * 32) ((0 / 255 - (1 # 2)) / (1 # 2))%Q).

(** A second [LeNet5(grayscale=True, num_classes=10)], built after the
    first in [Reference.world1], and the world it leaves. *)
Definition lenet2 : LeNet5 :=
  mkLeNet5 true 10
    [Conv2d 1 6 5 10 11; Tanh; MaxPool2d 2; Conv2d 6 16 5 12 13; Tanh; MaxPool2d 2]
    [Linear (16 * 5 * 5) 120 14 15; Tanh; Linear 120 84 16 17; Tanh;
     Linear 84 10 18 19].

Definition world2 : World :=
  mkWorld 20 (map zeros (Reference.parameter_shapes ++ Reference.parameter_shapes))
    (map zeros (Reference.parameter_shapes ++ Reference.parameter_shapes)) 0.



Definition loaders (batch_size : nat) : DataLoader * DataLoader * DataLoader :=
  (Reference.loader0, Reference.loader0, Reference.loader0).

End ReferenceData.

(** * Verification *)

(** [lia] with division and remainder by constants. *)
Ltac Zify.zify_post_hook ::= Z.div_mod_to_equations.

(** ** Lists and kernels *)

Lemma length_tabulate {A} (n : nat) (f : nat → A) : length (tabulate n f) = n.
Proof. unfold tabulate. by rewrite length_map, length_seq. Qed.

Lemma conv2d_spec cin cout k wt bs x n c h w :
  shape x = [n; c; h; w] →
  (c = cin ∧ k ≤ h ∧ k ≤ w ∧
   ∃ t, conv2d cin cout k wt bs x = Ok t ∧
        shape t = [n; cout; h - k + 1; w - k + 1] ∧ well_formed t)
  ∨ (¬ (c = cin ∧ k ≤ h ∧ k ≤ w) ∧ conv2d cin cout k wt bs x = Raise RuntimeError).
Proof.
  intros Hs. unfold conv2d. rewrite Hs.
  repeat case_bool_decide; simpl; try (right; split; [tauto | done]).
  left. repeat split; try done. eexists. split; [done |].
  split; [done |]. unfold well_formed. simpl. rewrite length_tabulate. lia.
Qed.

Lemma max_pool2d_spec k x n c h w :
  shape x = [n; c; h; w] →
  (1 ≤ k ∧ k ≤ h ∧ k ≤ w ∧
   ∃ t, max_pool2d k x = Ok t ∧ shape t = [n; c; h / k; w / k] ∧ well_formed t)
  ∨ (¬ (1 ≤ k ∧ k ≤ h ∧ k ≤ w) ∧ max_pool2d k x = Raise RuntimeError).
Proof.
  intros Hs. unfold max_pool2d. rewrite Hs.
  repeat case_bool_decide; simpl; try (right; split; [tauto | done]).
  left. repeat split; try done. eexists. split; [done |].
  split; [done |]. unfold well_formed. simpl. rewrite length_tabulate. lia.
Qed.

Lemma flatten1_spec x d0 d1 rest :
  shape x = d0 :: d1 :: rest → well_formed x →
  ∃ t, flatten1 x = Ok t ∧ shape t = [d0; numel (d1 :: rest)] ∧ well_formed t.
Proof.
  intros Hs Hwf. unfold flatten1. rewrite Hs. eexists. split; [done |].
  split; [done |]. unfold well_formed in *. rewrite Hs in Hwf. simpl in *. lia.
Qed.

Lemma linear_spec fin fout wt bs x n d :
  shape x = [n; d] →
  (d = fin ∧ ∃ t, linear fin fout wt bs x = Ok t ∧ shape t = [n; fout] ∧ well_formed t)
  ∨ (d ≠ fin ∧ linear fin fout wt bs x = Raise RuntimeError).
Proof.
  intros Hs. unfold linear. rewrite Hs. simpl.
  case_bool_decide; [left | right; done].
  split; [done |]. eexists. split; [done |]. split; [done |].
  unfold well_formed. simpl. rewrite length_tabulate. lia.
Qed.

Lemma map_tensor_shape f x : shape (map_tensor f x) = shape x.
Proof. done. Qed.

Lemma map_tensor_well_formed f x : well_formed x → well_formed (map_tensor f x).
Proof. unfold well_formed. simpl. by rewrite length_map. Qed.

Section Verification.
Context {torch : TorchLib}.

(** ** The forward pass reads the world and nothing else than [params] *)

Lemma Module_forward_reader (m : Module_) :
  ∃ f, ∀ x w, Module_forward m x w = (f x (params w), w).
Proof.
  destruct m as [cin cout k wr br | | k | fin fout wr br]; simpl.
  - by exists (λ x ps, conv2d cin cout k (nth wr ps (zeros [])) (nth br ps (zeros [])) x).
  - by exists (λ x _, Ok (map_tensor tanh x)).
  - by exists (λ x _, max_pool2d k x).
  - by exists (λ x ps, linear fin fout (nth wr ps (zeros [])) (nth br ps (zeros [])) x).
Qed.

Lemma Sequential_forward_reader (ms : list Module_) :
  ∃ f, ∀ x w, Sequential_forward ms x w = (f x (params w), w).
Proof.
  induction ms as [| m ms [g Hg]].
  - by exists (λ x _, Ok x).
  - destruct (Module_forward_reader m) as [f Hf].
    exists (λ x ps, match f x ps with Ok y => g y ps | Raise e => Raise e end).
    intros x w. simpl. unfold bind. rewrite Hf.
    destruct (f x (params w)); [apply Hg | done].
Qed.

Lemma forward_reader (self : LeNet5) :
  ∃ f, ∀ x w, forward self x w = (f x (params w), w).
Proof.
  destruct (Sequential_forward_reader (features self)) as [f Hf].
  destruct (Sequential_forward_reader (classifier self)) as [g Hg].
  exists (λ x ps, match f x ps with
                  | Ok y => match flatten1 y with
                            | Ok z => g z ps
                            | Raise e => Raise e
                            end
                  | Raise e => Raise e
                  end).
  intros x w. unfold forward, bind, lift, ret. rewrite Hf.
  destruct (f x (params w)) as [y |]; [| done].
  destruct (flatten1 y) as [z |]; [| done].
  rewrite Hg. by destruct (g z (params w)).
Qed.

Lemma forward_world (self : LeNet5) x w : (forward self x w).2 = w.
Proof. destruct (forward_reader self) as [f Hf]. by rewrite Hf. Qed.

Lemma forward_params_only (self : LeNet5) x w1 w2 :
  params w1 = params w2 → (forward self x w1).1 = (forward self x w2).1.
Proof. destruct (forward_reader self) as [f Hf]. rewrite !Hf. by intros ->. Qed.

Lemma Sequential_forward_app (ms1 ms2 : list Module_) x w :
  Sequential_forward (ms1 ++ ms2) x w =
  match Sequential_forward ms1 x w with
  | (Ok y, w') => Sequential_forward ms2 y w'
  | (Raise e, w') => (Raise e, w')
  end.
Proof.
  revert x w. induction ms1 as [| m ms1 IH]; intros x w; [done |].
  simpl. unfold bind. destruct (Module_forward m x w) as [[y | e] w']; [apply IH | done].
Qed.

(** ** Shapes through the two stages and the classifier *)

Lemma bind_eq {A B} (m : Torch A) (k : A → Torch B) w :
  bind m k w = match m w with
               | (Ok a, w') => k a w'
               | (Raise e, w') => (Raise e, w')
               end.
Proof. done. Qed.

Lemma bind_lift_eq {A B} (r : result A) (k : A → Torch B) w :
  bind (lift r) k w = match r with
                      | Ok a => k a w
                      | Raise e => (Raise e, w)
                      end.
Proof. done. Qed.

Lemma Sequential_forward_cons m ms x w :
  Sequential_forward (m :: ms) x w =
  match Module_forward m x w with
  | (Ok y, w') => Sequential_forward ms y w'
  | (Raise e, w') => (Raise e, w')
  end.
Proof. done. Qed.

Lemma Module_forward_Conv2d cin cout k wr br x w :
  Module_forward (Conv2d cin cout k wr br) x w =
  (conv2d cin cout k (nth wr (params w) (zeros [])) (nth br (params w) (zeros [])) x, w).
Proof. done. Qed.

Lemma Module_forward_Linear fin fout wr br x w :
  Module_forward (Linear fin fout wr br) x w =
  (linear fin fout (nth wr (params w) (zeros [])) (nth br (params w) (zeros [])) x, w).
Proof. done. Qed.

Lemma Module_forward_Tanh x w : Module_forward Tanh x w = (Ok (map_tensor tanh x), w).
Proof. done. Qed.

Lemma Module_forward_MaxPool2d k x w :
  Module_forward (MaxPool2d k) x w = (max_pool2d k x, w).
Proof. done. Qed.

Lemma Sequential_forward_nil x w : Sequential_forward [] x w = (Ok x, w).
Proof. done. Qed.

Lemma stage_spec cin cout wr br x n c h w wd :
  shape x = [n; c; h; w] →
  (c = cin ∧ 6 ≤ h ∧ 6 ≤ w ∧
   ∃ t, Sequential_forward [Conv2d cin cout 5 wr br; Tanh; MaxPool2d 2] x wd = (Ok t, wd) ∧
        shape t = [n; cout; (h - 5 + 1) / 2; (w - 5 + 1) / 2] ∧ well_formed t)
  ∨ (¬ (c = cin ∧ 6 ≤ h ∧ 6 ≤ w) ∧
     Sequential_forward [Conv2d cin cout 5 wr br; Tanh; MaxPool2d 2] x wd
     = (Raise RuntimeError, wd)).
Proof.
  intros Hs. rewrite Sequential_forward_cons, Module_forward_Conv2d.
  destruct (conv2d_spec cin cout 5 (nth wr (params wd) (zeros []))
              (nth br (params wd) (zeros [])) x n c h w Hs)
    as [(? & ? & ? & t & -> & Hst & Hwt) | (Hn & ->)]; [| right; split; [lia | done]].
  rewrite Sequential_forward_cons, Module_forward_Tanh.
  rewrite Sequential_forward_cons, Module_forward_MaxPool2d.
  destruct (max_pool2d_spec 2 (map_tensor tanh t) n cout (h - 5 + 1) (w - 5 + 1))
    as [(? & ? & ? & u & -> & Hsu & Hwu) | (Hn & ->)]; [done | |].
  - left. repeat split; [done | lia | lia |]. by exists u.
  - right. split; [lia | done].
Qed.

Lemma features_spec cin r1 r2 r3 r4 x n c h w wd :
  shape x = [n; c; h; w] →
  let ms := [Conv2d cin 6 5 r1 r2; Tanh; MaxPool2d 2;
             Conv2d 6 16 5 r3 r4; Tanh; MaxPool2d 2] in
  (c = cin ∧ 1 ≤ feature_side h ∧ 1 ≤ feature_side w ∧
   ∃ t, Sequential_forward ms x wd = (Ok t, wd) ∧
        shape t = [n; 16; feature_side h; feature_side w] ∧ well_formed t)
  ∨ (¬ (c = cin ∧ 1 ≤ feature_side h ∧ 1 ≤ feature_side w) ∧
     Sequential_forward ms x wd = (Raise RuntimeError, wd)).
Proof.
  intros Hs ms. unfold feature_side.
  change ms with ([Conv2d cin 6 5 r1 r2; Tanh; MaxPool2d 2] ++
                  [Conv2d 6 16 5 r3 r4; Tanh; MaxPool2d 2]).
  rewrite Sequential_forward_app.
  destruct (stage_spec cin 6 r1 r2 x n c h w wd Hs)
    as [(? & ? & ? & t & -> & Hst & Hwt) | (Hn & ->)]; [| right; split; [lia | done]].
  destruct (stage_spec 6 16 r3 r4 t n 6 ((h - 5 + 1) / 2) ((w - 5 + 1) / 2) wd Hst)
    as [(? & ? & ? & u & -> & Hsu & Hwu) | (Hn & ->)].
  - left. repeat split; [done | lia | lia |]. by exists u.
  - right. split; [lia | done].
Qed.

Lemma classifier_spec nc r1 r2 r3 r4 r5 r6 x n d wd :
  shape x = [n; d] →
  let ms := [Linear (16 * 5 * 5) 120 r1 r2; Tanh; Linear 120 84 r3 r4; Tanh;
             Linear 84 nc r5 r6] in
  (d = 400 ∧ ∃ t, Sequential_forward ms x wd = (Ok t, wd) ∧
                   shape t = [n; nc] ∧ well_formed t)
  ∨ (d ≠ 400 ∧ Sequential_forward ms x wd = (Raise RuntimeError, wd)).
Proof.
  intros Hs ms. subst ms.
  rewrite Sequential_forward_cons, Module_forward_Linear.
  destruct (linear_spec (16 * 5 * 5) 120 (nth r1 (params wd) (zeros []))
              (nth r2 (params wd) (zeros [])) x n d Hs)
    as [(? & t & -> & Hst & Hwt) | (Hn & ->)]; [| right; split; [lia | done]].
  rewrite Sequential_forward_cons, Module_forward_Tanh.
  rewrite Sequential_forward_cons, Module_forward_Linear.
  destruct (linear_spec 120 84 (nth r3 (params wd) (zeros []))
              (nth r4 (params wd) (zeros [])) (map_tensor tanh t) n 120)
    as [(? & u & -> & Hsu & Hwu) | (Hn & ->)]; [done | | done].
  rewrite Sequential_forward_cons, Module_forward_Tanh.
  rewrite Sequential_forward_cons, Module_forward_Linear.
  destruct (linear_spec 84 nc (nth r5 (params wd) (zeros []))
              (nth r6 (params wd) (zeros [])) (map_tensor tanh u) n 84)
    as [(? & v & -> & Hsv & Hwv) | (Hn & ->)]; [done | | done].
  left. split; [lia |]. by exists v.
Qed.

(** ** The constructor *)

Lemma Conv2d_init_spec cin cout k w :
  ∃ r1 r2 w', Conv2d_init cin cout k w = (Ok (Conv2d cin cout k r1 r2), w').
Proof. unfold Conv2d_init, new_parameter, bind, ret, get_world, put_world. by do 3 eexists. Qed.

Lemma Linear_init_spec fin fout w :
  ∃ r1 r2 w', Linear_init fin fout w = (Ok (Linear fin fout r1 r2), w').
Proof. unfold Linear_init, new_parameter, bind, ret, get_world, put_world. by do 3 eexists. Qed.

Lemma LeNet5_init_spec nc g w :
  ∃ r1 r2 r3 r4 r5 r6 r7 r8 r9 r10 w',
    LeNet5_init nc g w =
    (Ok (mkLeNet5 (default false g) nc
           [Conv2d (if default false g then 1 else 3) 6 5 r1 r2; Tanh; MaxPool2d 2;
            Conv2d 6 16 5 r3 r4; Tanh; MaxPool2d 2]
           [Linear (16 * 5 * 5) 120 r5 r6; Tanh; Linear 120 84 r7 r8; Tanh;
            Linear 84 nc r9 r10]), w').
Proof.
  unfold LeNet5_init.
  destruct (Conv2d_init_spec (if default false g then 1 else 3) 6 5 w)
    as (r1 & r2 & w1 & H1).
  destruct (Conv2d_init_spec 6 16 5 w1) as (r3 & r4 & w2 & H2).
  destruct (Linear_init_spec (16 * 5 * 5) 120 w2) as (r5 & r6 & w3 & H3).
  destruct (Linear_init_spec 120 84 w3) as (r7 & r8 & w4 & H4).
  destruct (Linear_init_spec 84 nc w4) as (r9 & r10 & w5 & H5).
  exists r1, r2, r3, r4, r5, r6, r7, r8, r9, r10, w5.
  unfold bind at 1. rewrite H1. unfold bind at 1. rewrite H2.
  unfold bind at 1. rewrite H3. unfold bind at 1. rewrite H4.
  unfold bind at 1. by rewrite H5.
Qed.

Lemma LeNet5_init_architecture nc g w :
  ∃ self w', LeNet5_init nc g w = (Ok self, w') ∧
             grayscale self = default false g ∧ num_classes self = nc ∧
             architecture self = LeNet5_architecture nc (default false g).
Proof.
  destruct (LeNet5_init_spec nc g w)
    as (r1 & r2 & r3 & r4 & r5 & r6 & r7 & r8 & r9 & r10 & w' & ->).
  by do 2 eexists.
Qed.

Lemma architecture_inv self nc gs :
  architecture self = LeNet5_architecture nc gs →
  ∃ r1 r2 r3 r4 r5 r6 r7 r8 r9 r10,
    features self = [Conv2d (if gs then 1 else 3) 6 5 r1 r2; Tanh; MaxPool2d 2;
                     Conv2d 6 16 5 r3 r4; Tanh; MaxPool2d 2] ∧
    classifier self = [Linear (16 * 5 * 5) 120 r5 r6; Tanh; Linear 120 84 r7 r8; Tanh;
                       Linear 84 nc r9 r10].
Proof.
  destruct self as [g n fs cs]. unfold architecture, LeNet5_architecture. simpl.
  intros [= Hf Hc].
  repeat match goal with
         | Hm : map Module_layer ?l = _ :: _ |- _ =>
             destruct l as [| [] ?]; simplify_eq/=
         | Hm : map Module_layer ?l = [] |- _ =>
             destruct l; simplify_eq/=
         end.
  by do 10 eexists.
Qed.

(** ** The forward pass on the LeNet-5 architecture *)

Lemma forward_cases self nc gs x n c h w wd :
  architecture self = LeNet5_architecture nc gs →
  shape x = [n; c; h; w] →
  (c = (if gs then 1 else 3) ∧ feature_side h * feature_side w = 25 ∧
   ∃ logits, forward self x wd = (Ok logits, wd) ∧
             shape logits = [n; nc] ∧ well_formed logits)
  ∨ (¬ (c = (if gs then 1 else 3) ∧ feature_side h * feature_side w = 25) ∧
     forward self x wd = (Raise RuntimeError, wd)).
Proof.
  intros Harch Hs.
  destruct (architecture_inv self nc gs Harch)
    as (r1 & r2 & r3 & r4 & r5 & r6 & r7 & r8 & r9 & r10 & Hf & Hc).
  unfold forward. rewrite Hf, Hc, bind_eq.
  destruct (features_spec (if gs then 1 else 3) r1 r2 r3 r4 x n c h w wd Hs)
    as [(? & ? & ? & t & -> & Hst & Hwt) | (Hn & ->)]; [| right; split; [nia | done]].
  destruct (flatten1_spec t n 16 [feature_side h; feature_side w] Hst Hwt)
    as (u & Hu & Hsu & Hwu).
  cbv beta iota. rewrite bind_lift_eq, Hu, bind_eq.
  assert (numel [16; feature_side h; feature_side w] = 400 ↔
          feature_side h * feature_side w = 25) as Hnumel
    by (unfold numel, foldr; lia).
  destruct (classifier_spec nc r5 r6 r7 r8 r9 r10 u n _ wd Hsu)
    as [(Hd & v & -> & Hsv & Hwv) | (Hd & ->)].
  - left. repeat split; [done | by apply Hnumel |]. by exists v.
  - right. split; [| done]. intros [_ ?]. by apply Hd, Hnumel.
Qed.

Lemma feature_side_32 : feature_side 32 = 5.
Proof. done. Qed.

Lemma forward_32 self nc gs x n wd :
  architecture self = LeNet5_architecture nc gs →
  shape x = [n; if gs then 1 else 3; 32; 32] →
  ∃ logits, forward self x wd = (Ok logits, wd) ∧
            shape logits = [n; nc] ∧ well_formed logits.
Proof.
  intros Harch Hs.
  destruct (forward_cases self nc gs x n _ 32 32 wd Harch Hs)
    as [(_ & _ & Hok) | (Hn & _)]; [done |].
  exfalso. apply Hn. by rewrite feature_side_32.
Qed.

Lemma new_parameter_spec s w :
  ∃ w', new_parameter s w = (Ok (length (params w)), w') ∧
        length (params w') = S (length (params w)).
Proof.
  exists (mkWorld (sample (rng w) s).2 (params w ++ [(sample (rng w) s).1])
            (grads w ++ [zeros s]) (lr w)).
  split; [reflexivity |]. cbn [params]. rewrite length_app. simpl. lia.
Qed.

Lemma Conv2d_init_allocated cin cout k w :
  ∃ r1 r2 w', Conv2d_init cin cout k w = (Ok (Conv2d cin cout k r1 r2), w') ∧
              r1 < length (params w') ∧ r2 < length (params w') ∧
              length (params w) ≤ length (params w').
Proof.
  destruct (new_parameter_spec [cout; cin; k; k] w) as (w1 & H1 & Hl1).
  destruct (new_parameter_spec [cout] w1) as (w2 & H2 & Hl2).
  exists (length (params w)), (length (params w1)), w2.
  unfold Conv2d_init. rewrite bind_eq, H1, bind_eq, H2.
  split; [reflexivity | lia].
Qed.

Lemma Linear_init_allocated fin fout w :
  ∃ r1 r2 w', Linear_init fin fout w = (Ok (Linear fin fout r1 r2), w') ∧
              r1 < length (params w') ∧ r2 < length (params w') ∧
              length (params w) ≤ length (params w').
Proof.
  destruct (new_parameter_spec [fout; fin] w) as (w1 & H1 & Hl1).
  destruct (new_parameter_spec [fout] w1) as (w2 & H2 & Hl2).
  exists (length (params w)), (length (params w1)), w2.
  unfold Linear_init. rewrite bind_eq, H1, bind_eq, H2.
  split; [reflexivity | lia].
Qed.

(** Every parameter reference of a constructed model points into [params]. *)
Lemma LeNet5_init_allocated nc g w self w' :
  LeNet5_init nc g w = (Ok self, w') →
  Forall (λ r, r < length (params w')) (parameters self).
Proof.
  unfold LeNet5_init.
  destruct (Conv2d_init_allocated (if default false g then 1 else 3) 6 5 w)
    as (r1 & r2 & w1 & E1 & ? & ? & ?).
  destruct (Conv2d_init_allocated 6 16 5 w1) as (r3 & r4 & w2 & E2 & ? & ? & ?).
  destruct (Linear_init_allocated (16 * 5 * 5) 120 w2) as (r5 & r6 & w3 & E3 & ? & ? & ?).
  destruct (Linear_init_allocated 120 84 w3) as (r7 & r8 & w4 & E4 & ? & ? & ?).
  destruct (Linear_init_allocated 84 nc w4) as (r9 & r10 & w5 & E5 & ? & ? & ?).
  rewrite bind_eq, E1. cbv beta iota. rewrite bind_eq, E2. cbv beta iota.
  rewrite bind_eq, E3. cbv beta iota. rewrite bind_eq, E4. cbv beta iota.
  rewrite bind_eq, E5. cbv beta iota. unfold ret. intros [= <- <-].
  unfold parameters. cbn [features classifier app map Module_parameters concat].
  repeat (constructor; [lia |]). constructor.
Qed.

Lemma LeNet5_init_inv nc g w0 self w1 :
  LeNet5_init nc g w0 = (Ok self, w1) →
  grayscale self = default false g ∧ num_classes self = nc ∧
  architecture self = LeNet5_architecture nc (default false g).
Proof.
  destruct (LeNet5_init_architecture nc g w0) as (self' & w' & -> & ? & ? & ?).
  by intros [= <- <-].
Qed.

Lemma LeNet5_init_default nc w0 :
  LeNet5_init nc None w0 = LeNet5_init nc (Some false) w0.
Proof. unfold LeNet5_init. cbn [from_option id]. reflexivity. Qed.

Lemma in_channels_iff (g : option bool) :
  Some (if default false g then 1 else 3) = Some 1 ↔ g = Some true.
Proof. destruct g as [[] |]; simpl; split; intros [=]; done. Qed.

(** ** Claims about the model *)

(** C1: for a model constructed for [nc] classes, the forward pass on an
    image batch with the expected channel count and 32x32 images returns
    logits of shape (batch size, [nc]), whatever the parameters hold. *)
Theorem C1_forward_logits_shape nc g w0 self w1 x n w :
  LeNet5_init nc g w0 = (Ok self, w1) →
  shape x = [n; if default false g then 1 else 3; 32; 32] →
  ∃ logits, forward self x w = (Ok logits, w) ∧
            shape logits = [n; num_classes self] ∧ num_classes self = nc ∧
            well_formed logits.
Proof.
  intros Hinit Hs. destruct (LeNet5_init_inv _ _ _ _ _ Hinit) as (_ & Hnc & Harch).
  destruct (forward_32 self nc _ x n w Harch Hs) as (logits & ? & ? & ?).
  exists logits. rewrite Hnc.
  split; [assumption |]. split; [assumption |]. split; [reflexivity | assumption].
Qed.

(** C2: the logits depend on the parameters and the input only: two runs
    with the same parameters and input give the same result, whatever the
    state of the random generator, of the gradients and of the learning
    rate, and so does a second run started where the first one ended. *)
Theorem C2_forward_deterministic (self : LeNet5) x ps g1 g2 gr1 gr2 l1 l2 :
  (forward self x (mkWorld g1 ps gr1 l1)).1 = (forward self x (mkWorld g2 ps gr2 l2)).1 ∧
  (forward self x (forward self x (mkWorld g1 ps gr1 l1)).2).1
  = (forward self x (mkWorld g1 ps gr1 l1)).1.
Proof.
  split; [by apply forward_params_only |]. by rewrite forward_world.
Qed.

(** C3: the constructor lists two convolution, activation, pooling stages
    and then three fully-connected layers with an activation between
    consecutive ones; the forward pass is the first list, a flattening, and
    the second list, whose last member is the linear layer that produces the
    class scores: nothing is applied after it. *)
Theorem C3_layer_sequence nc g w0 :
  ∃ self w1,
    LeNet5_init nc g w0 = (Ok self, w1) ∧
    architecture self =
      ([ConvL (if default false g then 1 else 3) 6 5; TanhL; PoolL 2;
        ConvL 6 16 5; TanhL; PoolL 2],
       [LinearL 400 120; TanhL; LinearL 120 84; TanhL; LinearL 84 nc]) ∧
    last (map Module_layer (classifier self)) = Some (LinearL 84 nc) ∧
    ∀ x w, forward self x w =
           (y <- Sequential_forward (features self) x ;;
            z <- lift (flatten1 y) ;;
            Sequential_forward (classifier self) z) w.
Proof.
  destruct (LeNet5_init_spec nc g w0)
    as (r1 & r2 & r3 & r4 & r5 & r6 & r7 & r8 & r9 & r10 & w1 & Hinit).
  eexists _, w1. split; [exact Hinit |]. split; [reflexivity |]. split; [reflexivity |].
  intros x w. unfold forward. rewrite !bind_eq.
  destruct (Sequential_forward _ x w) as [[y |] w']; [| done].
  rewrite !bind_eq. destruct (lift (flatten1 y) w') as [[z |] w'']; [| done].
  rewrite bind_eq. by destruct (Sequential_forward _ z w'') as [[] ?].
Qed.

(** C4: the forward pass leaves the world as it found it, the parameter
    tensors in particular, on every input (also when it raises); the
    backward pass writes gradients and no parameter. *)
Theorem C4_forward_preserves_parameters (self : LeNet5) x targets w :
  (forward self x w).2 = w ∧
  params (forward self x w).2 = params w ∧
  params (backward self x targets w).2 = params w.
Proof. by rewrite forward_world. Qed.

(** C9: the first convolution takes 1 channel exactly when the grayscale
    flag is true and 3 otherwise; the flag defaults to false; the script
    passes [grayscale=True], and its model accepts a 1-channel 32x32 batch,
    which a model built with the default rejects. *)
Theorem C9_grayscale_in_channels nc g w0 n d w :
  ∃ self w1,
    LeNet5_init nc g w0 = (Ok self, w1) ∧
    grayscale self = default false g ∧
    conv1_in_channels self = Some (if default false g then 1 else 3) ∧
    (conv1_in_channels self = Some 1 ↔ g = Some true) ∧
    LeNet5_init nc None w0 = LeNet5_init nc (Some false) w0 ∧
    ∃ main_self default_self w2 w3,
      model w0 = (Ok main_self, w2) ∧
      grayscale main_self = true ∧ num_classes main_self = 10 ∧
      (∃ logits, forward main_self (mkTensor [n; 1; 32; 32] d) w = (Ok logits, w) ∧
                 shape logits = [n; 10]) ∧
      LeNet5_init 10 None w0 = (Ok default_self, w3) ∧
      forward default_self (mkTensor [n; 1; 32; 32] d) w = (Raise RuntimeError, w).
Proof.
  destruct (LeNet5_init_spec nc g w0)
    as (r1 & r2 & r3 & r4 & r5 & r6 & r7 & r8 & r9 & r10 & w1 & Hinit).
  eexists _, w1. split; [exact Hinit |]. split; [reflexivity |]. split; [reflexivity |].
  split; [unfold conv1_in_channels; cbn [features]; apply in_channels_iff |].
  split; [apply LeNet5_init_default |].
  destruct (LeNet5_init_architecture 10 (Some true) w0) as (ms & w2 & Hm & ? & ? & Hma).
  destruct (LeNet5_init_architecture 10 None w0) as (ds & w3 & Hd & ? & ? & Hda).
  exists ms, ds, w2, w3.
  split; [exact Hm |]. split; [assumption |]. split; [assumption |].
  split; [| split; [exact Hd |]].
  - destruct (forward_32 ms 10 true (mkTensor [n; 1; 32; 32] d) n w Hma eq_refl)
      as (logits & Hl & Hsl & _). exists logits. split; assumption.
  - destruct (forward_cases ds 10 false (mkTensor [n; 1; 32; 32] d) n 1 32 32 w Hda eq_refl)
      as [(Hc & _) | (_ & Hr)]; [discriminate Hc | exact Hr].
Qed.

(** C10, as amended: on a single-channel 32x32 batch the feature extractor
    yields a 16x5x5 map whose flattening has the 400 features the first
    dense layer declares, and the forward pass returns logits; on a
    single-channel batch of any size the forward pass returns logits when the
    pooled map has 25 positions and raises a shape error otherwise. *)
Theorem C10_feature_map_fits_classifier nc w0 self w1 x n y m h w wd :
  LeNet5_init nc (Some true) w0 = (Ok self, w1) →
  shape x = [n; 1; 32; 32] →
  shape y = [m; 1; h; w] →
  (∃ t u logits,
     Sequential_forward (features self) x wd = (Ok t, wd) ∧ shape t = [n; 16; 5; 5] ∧
     flatten1 t = Ok u ∧ shape u = [n; 400] ∧
     head (map Module_layer (classifier self)) = Some (LinearL (16 * 5 * 5) 120) ∧
     forward self x wd = (Ok logits, wd) ∧ shape logits = [n; nc]) ∧
  ((feature_side h * feature_side w = 25 ∧
    ∃ logits, forward self y wd = (Ok logits, wd) ∧ shape logits = [m; nc])
   ∨ (feature_side h * feature_side w ≠ 25 ∧
      forward self y wd = (Raise RuntimeError, wd))).
Proof.
  intros Hinit Hx Hy.
  destruct (LeNet5_init_inv _ _ _ _ _ Hinit) as (_ & _ & Harch). simpl in Harch.
  split.
  - destruct (architecture_inv self nc true Harch)
      as (r1 & r2 & r3 & r4 & r5 & r6 & r7 & r8 & r9 & r10 & Hf & Hc).
    destruct (forward_32 self nc true x n wd Harch Hx) as (logits & Hfw & Hsl & _).
    rewrite Hf, Hc.
    destruct (features_spec 1 r1 r2 r3 r4 x n 1 32 32 wd Hx)
      as [(_ & _ & _ & t & Ht & Hst & Hwt) | (Hn & _)];
      [| exfalso; apply Hn; rewrite feature_side_32; lia].
    rewrite feature_side_32 in Hst.
    destruct (flatten1_spec t n 16 [5; 5] Hst Hwt) as (u & Hu & Hsu & _).
    exists t, u, logits.
    split; [exact Ht |]. split; [exact Hst |]. split; [exact Hu |].
    split; [exact Hsu |]. split; [reflexivity |]. split; [exact Hfw | exact Hsl].
  - destruct (forward_cases self nc true y m 1 h w wd Harch Hy)
      as [(_ & Hfs & logits & Hl & Hsl & _) | (Hn & Hr)].
    + left. split; [exact Hfs |]. exists logits. split; assumption.
    + right. split; [| exact Hr]. intros Hfs. apply Hn. split; [reflexivity | exact Hfs].
Qed.

(** ** The learning rate *)

Lemma preserves_lr_ret {A} (a : A) : preserves_lr (ret a).
Proof. done. Qed.

Lemma preserves_lr_raise {A} e : preserves_lr (@raise A e).
Proof. done. Qed.

Lemma preserves_lr_lift {A} (r : result A) : preserves_lr (lift r).
Proof. done. Qed.

Lemma preserves_lr_bind {A B} (m : Torch A) (k : A → Torch B) :
  preserves_lr m → (∀ a, preserves_lr (k a)) → preserves_lr (bind m k).
Proof.
  intros Hm Hk w. rewrite bind_eq. specialize (Hm w).
  destruct (m w) as [[a | e] w']; simpl in *; [by rewrite Hk | done].
Qed.

Lemma preserves_lr_foldM {A B} (J : B → Prop) (f : B → A → Torch B) :
  (∀ acc a, J acc → preserves_lr (f acc a)) →
  (∀ acc a w acc' w', J acc → f acc a w = (Ok acc', w') → J acc') →
  ∀ l acc, J acc → preserves_lr (foldM f acc l).
Proof.
  intros Hlr HJ l. induction l as [| a l IH]; intros acc Hacc w; [done |].
  cbn [foldM]. rewrite bind_eq. pose proof (Hlr acc a Hacc w) as Hw.
  destruct (f acc a w) as [[acc' | e] w'] eqn:Hf; simpl in Hw; [| done].
  rewrite IH; [done | by eapply HJ].
Qed.

Lemma preserves_lr_forward self x : preserves_lr (forward self x).
Proof. intros w. by rewrite forward_world. Qed.

Lemma preserves_lr_backward self x targets : preserves_lr (backward self x targets).
Proof. done. Qed.

Lemma preserves_lr_SGD_step opt : preserves_lr (SGD_step opt).
Proof. done. Qed.

Lemma preserves_lr_train_batch self opt batch : preserves_lr (train_batch self opt batch).
Proof.
  unfold train_batch.
  apply preserves_lr_bind; [apply preserves_lr_forward | intros logits].
  apply preserves_lr_bind; [apply preserves_lr_lift | intros loss].
  apply preserves_lr_bind; [apply preserves_lr_backward | intros _].
  apply preserves_lr_bind; [apply preserves_lr_SGD_step | intros _].
  apply preserves_lr_ret.
Qed.

Lemma preserves_lr_compute_accuracy self loader :
  preserves_lr (compute_accuracy self loader).
Proof.
  unfold compute_accuracy.
  apply preserves_lr_bind; [| intros; apply preserves_lr_ret].
  apply (preserves_lr_foldM (λ _, True)); [| done | done].
  intros acc batch _.
  apply preserves_lr_bind; [apply preserves_lr_forward | intros logits].
  apply preserves_lr_bind; [apply preserves_lr_lift | intros predicted].
  case_bool_decide; [apply preserves_lr_ret | apply preserves_lr_raise].
Qed.

Lemma train_epoch_no_scheduler self tr va opt st :
  st.2 = None →
  preserves_lr (train_epoch self tr va opt st) ∧
  ∀ w st' w', train_epoch self tr va opt st w = (Ok st', w') → st'.2 = None.
Proof.
  intros Hst. unfold train_epoch. rewrite Hst. split.
  - apply preserves_lr_bind; [| intros losses].
    { apply (preserves_lr_foldM (λ _, True)); [| done | done].
      intros acc batch _.
      apply preserves_lr_bind; [apply preserves_lr_train_batch | intros].
      apply preserves_lr_ret. }
    apply preserves_lr_bind; [apply preserves_lr_compute_accuracy | intros ta].
    apply preserves_lr_bind; [apply preserves_lr_compute_accuracy | intros va'].
    apply preserves_lr_bind; [apply preserves_lr_ret | intros sch].
    apply preserves_lr_ret.
  - intros w st' w'. rewrite bind_eq.
    destruct (foldM _ _ tr w) as [[losses | e] w1]; [| done].
    rewrite bind_eq. destruct (compute_accuracy self tr w1) as [[ta | e] w2]; [| done].
    rewrite bind_eq. destruct (compute_accuracy self va w2) as [[va' | e] w3]; [| done].
    by intros [= <- <-].
Qed.

Lemma preserves_lr_train_model self epochs tr va te opt dev li :
  preserves_lr (train_model self epochs tr va te opt dev li None).
Proof.
  unfold train_model.
  apply preserves_lr_bind; [| intros; apply preserves_lr_ret].
  apply (preserves_lr_foldM (λ st, st.2 = None)); [| | done].
  - intros st _ Hst. by apply train_epoch_no_scheduler.
  - intros st _ w st' w' Hst Hrun.
    by eapply (proj2 (train_epoch_no_scheduler self tr va opt st Hst)).
Qed.

Lemma preserves_lr_compute_confusion_matrix self loader dev :
  preserves_lr (compute_confusion_matrix self loader dev).
Proof.
  unfold compute_confusion_matrix.
  apply (preserves_lr_foldM (λ _, True)); [| done | done].
  intros acc batch _.
  apply preserves_lr_bind; [apply preserves_lr_forward | intros logits].
  apply preserves_lr_bind; [apply preserves_lr_lift | intros predicted].
  case_bool_decide; [apply preserves_lr_lift | apply preserves_lr_raise].
Qed.

Lemma main_lr argv cuda dl w : lr (main argv cuda dl w).2 = (1 # 10)%Q.
Proof.
  unfold main. rewrite bind_eq.
  change (set_all_seeds RANDOM_SEED w)
    with (Ok tt, mkWorld RANDOM_SEED (params w) (grads w) (lr w)).
  cbv beta iota. rewrite bind_eq. unfold model.
  destruct (LeNet5_init_architecture 10 (Some true)
              (mkWorld RANDOM_SEED (params w) (grads w) (lr w)))
    as (self & w1 & -> & _).
  cbv beta iota. rewrite bind_eq.
  change (SGD_init (parameters self) (1 # 10) w1)
    with (Ok (mkSGD (parameters self)), mkWorld (rng w1) (params w1) (grads w1) (1 # 10)).
  cbv beta iota.
  set (w2 := mkWorld (rng w1) (params w1) (grads w1) (1 # 10)).
  change (1 # 10)%Q with (lr w2).
  apply (preserves_lr_bind (train_model self NUM_EPOCHS _ _ _ _ _ 100 None));
    [apply preserves_lr_train_model | intros history].
  apply preserves_lr_bind; [apply preserves_lr_compute_confusion_matrix | intros mat].
  apply preserves_lr_ret.
Qed.

(** ** Loops that never raise *)

Lemma foldM_Ok {A B} (I : list A → B → Prop) (P : A → Prop) (f : B → A → Torch B) :
  (∀ pre acc a w, P a → I pre acc →
     ∃ acc' w', f acc a w = (Ok acc', w') ∧ I (pre ++ [a]) acc') →
  ∀ l pre acc w, Forall P l → I pre acc →
     ∃ acc' w', foldM f acc l w = (Ok acc', w') ∧ I (pre ++ l) acc'.
Proof.
  intros Hstep l. induction l as [| a l IH]; intros pre acc w Hl Hacc.
  - exists acc, w. by rewrite app_nil_r.
  - apply Forall_cons in Hl as [Ha Hl].
    destruct (Hstep pre acc a w Ha Hacc) as (acc1 & w1 & Hf & H1).
    destruct (IH (pre ++ [a]) acc1 w1 Hl H1) as (acc2 & w2 & Hfold & H2).
    exists acc2, w2. cbn [foldM]. rewrite bind_eq, Hf, Hfold.
    split; [done |]. by rewrite <- app_assoc in H2.
Qed.

Lemma foldM_Ok_frame {A B} (I : list A → B → Prop) (P : A → Prop) (f : B → A → Torch B) :
  (∀ pre acc a w, P a → I pre acc →
     ∃ acc', f acc a w = (Ok acc', w) ∧ I (pre ++ [a]) acc') →
  ∀ l pre acc w, Forall P l → I pre acc →
     ∃ acc', foldM f acc l w = (Ok acc', w) ∧ I (pre ++ l) acc'.
Proof.
  intros Hstep l. induction l as [| a l IH]; intros pre acc w Hl Hacc.
  - exists acc. by rewrite app_nil_r.
  - apply Forall_cons in Hl as [Ha Hl].
    destruct (Hstep pre acc a w Ha Hacc) as (acc1 & Hf & H1).
    destruct (IH (pre ++ [a]) acc1 w Hl H1) as (acc2 & Hfold & H2).
    exists acc2. cbn [foldM]. rewrite bind_eq, Hf, Hfold.
    split; [done |]. by rewrite <- app_assoc in H2.
Qed.

(** ** Predictions and loss on well-shaped logits *)

Lemma argmax_from_lt l i besti bestv :
  besti < i → argmax_from i besti bestv l < i + length l.
Proof.
  revert i besti bestv. induction l as [| v l IH]; intros i besti bestv Hi; simpl.
  - lia.
  - destruct (Qle_bool v bestv).
    + specialize (IH (S i) besti bestv). lia.
    + specialize (IH (S i) i v). lia.
Qed.

Lemma argmax_lt l : 0 < length l → argmax l < length l.
Proof.
  destruct l as [| v l]; simpl; [lia | intros _].
  pose proof (argmax_from_lt l 1 0 v). lia.
Qed.

Lemma predicted_labels_spec logits n c :
  shape logits = [n; c] → 0 < c →
  ∃ predicted, predicted_labels logits = Ok predicted ∧
               length predicted = n ∧ Forall (λ p, p < c) predicted.
Proof.
  intros Hs Hc. unfold predicted_labels. rewrite Hs.
  case_bool_decide; [lia |]. eexists. split; [done |].
  split; [apply length_tabulate |].
  unfold tabulate at 1. apply Forall_forall. intros p Hp.
  apply list_elem_of_In, in_map_iff in Hp as (r & <- & _).
  pose proof (argmax_lt (tabulate c (λ o, item logits (r * c + o)))) as Hlt.
  rewrite length_tabulate in Hlt. by apply Hlt.
Qed.

Lemma cross_entropy_spec logits targets c :
  shape logits = [length targets; c] → Forall (λ y, y < c) targets →
  cross_entropy logits targets = Ok (cross_entropy_value logits targets).
Proof.
  intros Hs Hy. unfold cross_entropy. rewrite Hs.
  case_bool_decide; [simpl | done].
  assert (forallb (λ y, bool_decide (y < c)) targets = true) as ->; [| done].
  apply forallb_forall. intros y Hin. apply bool_decide_eq_true.
  rewrite Forall_forall in Hy. by apply Hy, list_elem_of_In.
Qed.

(** ** Training on valid batches *)

Lemma train_batch_Ok self nc gs opt batch w :
  architecture self = LeNet5_architecture nc gs →
  valid_batch (if gs then 1 else 3) nc batch →
  ∃ loss w', train_batch self opt batch w = (Ok loss, w').
Proof.
  intros Harch [Hs Hy]. unfold train_batch.
  destruct (forward_32 self nc gs batch.1 _ w Harch Hs) as (logits & Hf & Hsl & _).
  rewrite bind_eq, Hf. cbv beta iota.
  rewrite bind_lift_eq, (cross_entropy_spec _ _ nc Hsl Hy).
  do 2 eexists. reflexivity.
Qed.

Lemma accuracy_step_Ok self nc gs (acc : nat * nat) (batch : Tensor * list nat) w :
  architecture self = LeNet5_architecture nc gs → 0 < nc →
  valid_batch (if gs then 1 else 3) nc batch →
  ∃ acc',
    (logits <- forward self batch.1 ;;
     predicted <- lift (predicted_labels logits) ;;
     if bool_decide (length predicted = length batch.2)
     then ret (acc.1 + count_equal predicted batch.2, acc.2 + length batch.2)
     else raise RuntimeError) w = (Ok acc', w).
Proof.
  intros Harch Hnc [Hs Hy].
  destruct (forward_32 self nc gs batch.1 _ w Harch Hs) as (logits & Hf & Hsl & _).
  destruct (predicted_labels_spec logits _ nc Hsl Hnc) as (predicted & Hp & Hlen & _).
  rewrite bind_eq, Hf. cbv beta iota. rewrite bind_lift_eq, Hp.
  rewrite bool_decide_eq_true_2 by exact Hlen. eexists. reflexivity.
Qed.

Lemma compute_accuracy_Ok self nc gs loader w :
  architecture self = LeNet5_architecture nc gs → 0 < nc →
  Forall (valid_batch (if gs then 1 else 3) nc) loader →
  ∃ acc, compute_accuracy self loader w = (Ok acc, w).
Proof.
  intros Harch Hnc Hl. unfold compute_accuracy. rewrite bind_eq.
  match goal with
  | |- context [foldM ?f ?a loader w] =>
      destruct (foldM_Ok_frame (λ _ _, True) (valid_batch (if gs then 1 else 3) nc) f)
        with (l := loader) (pre := @nil (Tensor * list nat)) (acc := a) (w := w)
        as (counts & -> & _); [| exact Hl | exact I |]
  end.
  - intros pre acc batch w' Hb _.
    destruct (accuracy_step_Ok self nc gs acc batch w' Harch Hnc Hb) as (acc' & Hacc).
    exists acc'. split; [exact Hacc | exact I].
  - eexists. reflexivity.
Qed.

Lemma ReduceLROnPlateau_step_Ok s metrics w :
  ∃ s' w', ReduceLROnPlateau_step s metrics w = (Ok s', w').
Proof.
  unfold ReduceLROnPlateau_step. case_bool_decide; [| by do 2 eexists].
  rewrite bind_eq. unfold reduce_lr. rewrite bind_eq. cbn [get_world].
  destruct (negb _); by do 2 eexists.
Qed.

Lemma train_epoch_Ok self nc gs tr va opt st w :
  architecture self = LeNet5_architecture nc gs → 0 < nc →
  Forall (valid_batch (if gs then 1 else 3) nc) tr →
  Forall (valid_batch (if gs then 1 else 3) nc) va →
  ∃ st' w', train_epoch self tr va opt st w = (Ok st', w') ∧
    length (minibatch_loss_list st'.1) = length (minibatch_loss_list st.1) + length tr ∧
    length (train_acc_list st'.1) = S (length (train_acc_list st.1)) ∧
    length (valid_acc_list st'.1) = S (length (valid_acc_list st.1)).
Proof.
  intros Harch Hnc Htr Hva. unfold train_epoch. rewrite bind_eq.
  match goal with
  | |- context [foldM ?f ?a tr w] =>
      destruct (foldM_Ok
                  (λ pre (losses : list Q),
                     length losses = length (minibatch_loss_list st.1) + length pre)
                  (valid_batch (if gs then 1 else 3) nc) f)
        with (l := tr) (pre := @nil (Tensor * list nat)) (acc := a) (w := w)
        as (losses & w1 & -> & Hlosses); [| exact Htr | simpl; lia |]
  end.
  - intros pre acc batch w' Hb Hacc.
    destruct (train_batch_Ok self nc gs opt batch w' Harch Hb) as (loss & w'' & Hloss).
    exists (acc ++ [loss]), w''. rewrite bind_eq, Hloss.
    split; [reflexivity |]. rewrite !length_app, Hacc. simpl. lia.
  - simpl in Hlosses. cbv beta iota. rewrite bind_eq.
    destruct (compute_accuracy_Ok self nc gs tr w1 Harch Hnc Htr) as (ta & ->).
    cbv beta iota. rewrite bind_eq.
    destruct (compute_accuracy_Ok self nc gs va w1 Harch Hnc Hva) as (va' & ->).
    cbv beta iota. rewrite bind_eq.
    destruct st.2 as [s |].
    + rewrite bind_eq.
      destruct (ReduceLROnPlateau_step_Ok s va' w1) as (s' & w2 & ->).
      do 2 eexists. split; [reflexivity |]. simpl. rewrite !length_app. simpl. lia.
    + do 2 eexists. split; [reflexivity |]. simpl. rewrite !length_app. simpl. lia.
Qed.

Lemma train_model_Ok self nc gs epochs tr va te opt dev li sched w :
  architecture self = LeNet5_architecture nc gs → 0 < nc →
  Forall (valid_batch (if gs then 1 else 3) nc) tr →
  Forall (valid_batch (if gs then 1 else 3) nc) va →
  ∃ history w', train_model self epochs tr va te opt dev li sched w = (Ok history, w') ∧
    length (minibatch_loss_list history) = epochs * length tr ∧
    length (train_acc_list history) = epochs ∧
    length (valid_acc_list history) = epochs.
Proof.
  intros Harch Hnc Htr Hva. unfold train_model. rewrite bind_eq.
  match goal with
  | |- context [foldM ?f ?a (seq 0 epochs) w] =>
      destruct (foldM_Ok
                  (λ pre (st : History * option ReduceLROnPlateau),
                     length (minibatch_loss_list st.1) = length pre * length tr ∧
                     length (train_acc_list st.1) = length pre ∧
                     length (valid_acc_list st.1) = length pre)
                  (λ _, True) f)
        with (l := seq 0 epochs) (pre := @nil nat) (acc := a) (w := w)
        as (st & w1 & -> & Hl & Hta & Hva');
        [| by apply Forall_true | by simpl |]
  end.
  - intros pre st epoch w' _ (Hl & Hta & Hva').
    destruct (train_epoch_Ok self nc gs tr va opt st w' Harch Hnc Htr Hva)
      as (st' & w'' & Hst' & Hl' & Hta' & Hva'').
    exists st', w''. split; [exact Hst' |]. rewrite length_app. simpl. lia.
  - simpl in Hl, Hta, Hva'. rewrite length_seq in Hl, Hta, Hva'.
    exists st.1, w1. split; [reflexivity |]. lia.
Qed.

(** ** Counting into the confusion matrix *)

Lemma sum_list_insert (l : list nat) i x y :
  l !! i = Some x → sum_list (<[i:=y]> l) + x = sum_list l + y.
Proof.
  revert i. induction l as [| z l IH]; intros [| i] Hi; simplify_eq/=; [lia |].
  specialize (IH i Hi). lia.
Qed.

Lemma count_class_app r l1 l2 :
  count_class r (l1 ++ l2) = count_class r l1 + count_class r l2.
Proof. unfold count_class. by rewrite filter_app, length_app. Qed.

Lemma count_class_cons r y l :
  count_class r (y :: l) = (if bool_decide (y = r) then 1 else 0) + count_class r l.
Proof.
  unfold count_class. rewrite filter_cons.
  case_decide; case_bool_decide; simpl; congruence.
Qed.

Lemma all_targets_snoc (pre : DataLoader) batch :
  all_targets (pre ++ [batch]) = all_targets pre ++ batch.2.
Proof. unfold all_targets. rewrite map_app, concat_app. simpl. by rewrite app_nil_r. Qed.

Lemma count_pair_spec rows cols mat t p :
  matrix_shape rows cols mat → t < rows → p < cols →
  ∃ mat', count_pair mat t p = Ok mat' ∧ matrix_shape rows cols mat' ∧
          (∀ r, row_sum mat' r = row_sum mat r + (if bool_decide (t = r) then 1 else 0)) ∧
          total_sum mat' = S (total_sum mat).
Proof.
  intros [Hlen Hrows] Ht Hp. unfold count_pair.
  destruct (lookup_lt_is_Some_2 mat t) as [row Hrow]; [lia |].
  assert (length row = cols) as Hrl
    by exact (Forall_lookup_1 (λ row, length row = cols) mat t row Hrows Hrow).
  destruct (lookup_lt_is_Some_2 row p) as [v Hv]; [lia |].
  rewrite Hrow, Hv. eexists. split; [done |].
  pose proof (sum_list_insert row p v (S v) Hv) as Hsum.
  split; [| split].
  - split; [by rewrite length_insert |].
    apply Forall_insert; [done | by rewrite length_insert].
  - intros r. unfold row_sum. case_bool_decide as Hr.
    + subst r. rewrite list_lookup_insert_eq, Hrow by lia. simpl. lia.
    + rewrite list_lookup_insert_ne by done. lia.
  - unfold total_sum. rewrite list_fmap_insert.
    pose proof (sum_list_insert (sum_list <$> mat) t (sum_list row)
                  (sum_list (<[p:=S v]> row))) as Htot.
    rewrite list_lookup_fmap, Hrow in Htot. specialize (Htot eq_refl). lia.
Qed.

Lemma count_pairs_spec rows cols pairs mat :
  matrix_shape rows cols mat →
  Forall (λ tp : nat * nat, tp.1 < rows ∧ tp.2 < cols) pairs →
  ∃ mat', count_pairs mat pairs = Ok mat' ∧ matrix_shape rows cols mat' ∧
          (∀ r, row_sum mat' r = row_sum mat r + count_class r pairs.*1) ∧
          total_sum mat' = total_sum mat + length pairs.
Proof.
  revert mat. induction pairs as [| [t p] pairs IH]; intros mat Hmat Hpairs.
  - exists mat. split; [done |]. split; [done |].
    split; [intros r; unfold count_class; simpl; lia | simpl; lia].
  - apply Forall_cons in Hpairs as [[Ht Hp] Hpairs]. simpl in Ht, Hp.
    destruct (count_pair_spec rows cols mat t p Hmat Ht Hp)
      as (mat1 & Hc & Hmat1 & Hrow1 & Htot1).
    destruct (IH mat1 Hmat1 Hpairs) as (mat2 & Hcs & Hmat2 & Hrow2 & Htot2).
    exists mat2. cbn [count_pairs]. rewrite Hc. split; [exact Hcs |].
    split; [exact Hmat2 |]. split.
    + intros r. rewrite Hrow2, Hrow1. cbn [fmap list_fmap fst].
      rewrite count_class_cons. lia.
    + rewrite Htot2, Htot1. simpl. lia.
Qed.

Lemma zip_targets_spec rows cols (targets predicted : list nat) :
  length predicted = length targets →
  Forall (λ y, y < rows) targets → Forall (λ p, p < cols) predicted →
  Forall (λ tp : nat * nat, tp.1 < rows ∧ tp.2 < cols) (zip targets predicted) ∧
  (zip targets predicted).*1 = targets ∧
  length (zip targets predicted) = length targets.
Proof.
  revert predicted. induction targets as [| y targets IH]; intros [| p predicted] Hlen Hy Hp;
    simplify_eq/=; [done |].
  apply Forall_cons in Hy as [Hy Hys]. apply Forall_cons in Hp as [Hp Hps].
  destruct (IH predicted Hlen Hys Hps) as (Hall & Hfst & Hl).
  split; [by constructor |]. split; [by rewrite Hfst | by rewrite Hl].
Qed.

Lemma empty_matrix_spec :
  matrix_shape 10 10 (replicate 10 (replicate 10 0)) ∧
  (∀ r, row_sum (replicate 10 (replicate 10 0)) r = 0) ∧
  total_sum (replicate 10 (replicate 10 0)) = 0.
Proof.
  split; [split; [done | by apply Forall_replicate] |]. split; [| done].
  intros r. unfold row_sum.
  destruct (replicate 10 (replicate 10 0) !! r) as [row |] eqn:Hrow; [| done].
  by apply lookup_replicate in Hrow as [-> _].
Qed.

Lemma compute_confusion_matrix_Ok self gs loader dev w :
  architecture self = LeNet5_architecture 10 gs →
  Forall (valid_batch (if gs then 1 else 3) 10) loader →
  ∃ mat, compute_confusion_matrix self loader dev w = (Ok mat, w) ∧
         matrix_shape 10 10 mat ∧
         (∀ r, row_sum mat r = count_class r (all_targets loader)) ∧
         total_sum mat = length (all_targets loader).
Proof.
  intros Harch Hl. unfold compute_confusion_matrix.
  destruct empty_matrix_spec as (Hshape0 & Hrow0 & Htot0).
  match goal with
  | |- context [foldM ?f ?a loader w] =>
      destruct (foldM_Ok_frame
                  (λ pre mat,
                     matrix_shape 10 10 mat ∧
                     (∀ r, row_sum mat r = count_class r (all_targets pre)) ∧
                     total_sum mat = length (all_targets pre))
                  (valid_batch (if gs then 1 else 3) 10) f)
        with (l := loader) (pre := @nil (Tensor * list nat)) (acc := a) (w := w)
        as (mat & Hrun & Hmat); [| exact Hl | |]
  end.
  - intros pre mat batch w' [Hs Hy] (Hshape & Hrow & Htot).
    destruct (forward_32 self 10 gs batch.1 _ w' Harch Hs) as (logits & Hf & Hsl & _).
    destruct (predicted_labels_spec logits _ 10 Hsl) as (predicted & Hp & Hlen & Hlt); [lia |].
    destruct (zip_targets_spec 10 10 batch.2 predicted Hlen Hy Hlt) as (Hall & Hfst & Hzl).
    destruct (count_pairs_spec 10 10 _ mat Hshape Hall)
      as (mat' & Hcount & Hshape' & Hrow' & Htot').
    exists mat'. rewrite bind_eq, Hf. cbv beta iota. rewrite bind_lift_eq, Hp.
    rewrite bool_decide_eq_true_2 by exact Hlen.
    unfold lift. rewrite Hcount. split; [reflexivity |].
    split; [exact Hshape' |]. rewrite all_targets_snoc. split.
    + intros r. rewrite Hrow', Hrow, Hfst, count_class_app. lia.
    + rewrite Htot', Htot, Hzl, length_app. lia.
  - split; [exact Hshape0 |]. split; [intros r; by rewrite Hrow0 | by rewrite Htot0].
  - exists mat. split; [exact Hrun | exact Hmat].
Qed.

(** ** Runs that returned *)

Lemma foldM_inv {A B} (I : list A → B → Prop) (f : B → A → Torch B) :
  (∀ pre acc a w acc' w', I pre acc → f acc a w = (Ok acc', w') → I (pre ++ [a]) acc') →
  ∀ l pre acc w acc' w', I pre acc → foldM f acc l w = (Ok acc', w') → I (pre ++ l) acc'.
Proof.
  intros Hstep l. induction l as [| a l IH]; intros pre acc w acc' w' Hacc Hrun.
  - injection Hrun as [= <- <-]. by rewrite app_nil_r.
  - cbn [foldM] in Hrun. rewrite bind_eq in Hrun.
    destruct (f acc a w) as [[acc1 | e] w1] eqn:Hf; [| discriminate Hrun].
    apply (IH (pre ++ [a])) in Hrun; [| by eapply Hstep].
    by rewrite <- app_assoc in Hrun.
Qed.

Lemma count_pair_bounds rows cols mat t p mat' :
  matrix_shape rows cols mat → count_pair mat t p = Ok mat' → t < rows ∧ p < cols.
Proof.
  intros [Hlen Hrows]. unfold count_pair.
  destruct (mat !! t) as [row |] eqn:Hrow; [| discriminate].
  destruct (row !! p) as [v |] eqn:Hv; [| discriminate]. intros _.
  pose proof (Forall_lookup_1 (λ row, length row = cols) mat t row Hrows Hrow) as Hrl.
  apply lookup_lt_Some in Hrow, Hv. simpl in Hrl. lia.
Qed.

Lemma count_pairs_bounds rows cols pairs mat mat' :
  matrix_shape rows cols mat → count_pairs mat pairs = Ok mat' →
  Forall (λ tp : nat * nat, tp.1 < rows ∧ tp.2 < cols) pairs.
Proof.
  revert mat. induction pairs as [| [t p] pairs IH]; intros mat Hmat Hrun; [done |].
  cbn [count_pairs] in Hrun.
  destruct (count_pair mat t p) as [mat1 |] eqn:Hc; [| discriminate Hrun].
  destruct (count_pair_bounds rows cols mat t p mat1 Hmat Hc) as [Ht Hp].
  destruct (count_pair_spec rows cols mat t p Hmat Ht Hp) as (mat2 & Hc2 & Hmat2 & _).
  rewrite Hc in Hc2. injection Hc2 as <-.
  constructor; [done | by eapply IH].
Qed.

Lemma zip_equal_length (targets predicted : list nat) :
  length predicted = length targets →
  (zip targets predicted).*1 = targets ∧
  length (zip targets predicted) = length targets.
Proof.
  revert predicted. induction targets as [| y targets IH]; intros [| p predicted] Hlen;
    simplify_eq/=; [done |].
  destruct (IH predicted Hlen) as [Hfst Hl]. by rewrite Hfst, Hl.
Qed.

Lemma compute_confusion_matrix_inv self loader dev w mat w' :
  compute_confusion_matrix self loader dev w = (Ok mat, w') →
  matrix_shape 10 10 mat ∧
  (∀ r, row_sum mat r = count_class r (all_targets loader)) ∧
  total_sum mat = length (all_targets loader).
Proof.
  unfold compute_confusion_matrix. intros Hrun.
  destruct empty_matrix_spec as (Hshape0 & Hrow0 & Htot0).
  revert Hrun.
  apply (foldM_inv
           (λ pre mat,
              matrix_shape 10 10 mat ∧
              (∀ r, row_sum mat r = count_class r (all_targets pre)) ∧
              total_sum mat = length (all_targets pre)) _)
    with (pre := @nil (Tensor * list nat)).
  - clear. intros pre mat batch w mat' w' (Hshape & Hrow & Htot). rewrite bind_eq.
    destruct (forward self batch.1 w) as [[logits | e] w1]; [| discriminate].
    rewrite bind_lift_eq.
    destruct (predicted_labels logits) as [predicted | e]; [| discriminate].
    case_bool_decide as Hlen; [| discriminate].
    unfold lift. intros [= Hcount <-].
    pose proof (count_pairs_bounds 10 10 _ mat mat' Hshape Hcount) as Hall.
    destruct (count_pairs_spec 10 10 _ mat Hshape Hall)
      as (mat2 & Hcount2 & Hshape' & Hrow' & Htot').
    rewrite Hcount in Hcount2. injection Hcount2 as <-.
    destruct (zip_equal_length batch.2 predicted Hlen) as [Hfst Hzl].
    split; [exact Hshape' |]. rewrite all_targets_snoc. split.
    + intros r. rewrite Hrow', Hrow, Hfst, count_class_app. lia.
    + rewrite Htot', Htot, Hzl, length_app. lia.
  - split; [exact Hshape0 |]. split; [intros r; by rewrite Hrow0 | by rewrite Htot0].
Qed.

Lemma train_epoch_inv self tr va opt st w st' w' :
  train_epoch self tr va opt st w = (Ok st', w') →
  length (minibatch_loss_list st'.1) = length (minibatch_loss_list st.1) + length tr ∧
  length (train_acc_list st'.1) = S (length (train_acc_list st.1)) ∧
  length (valid_acc_list st'.1) = S (length (valid_acc_list st.1)).
Proof.
  unfold train_epoch. rewrite bind_eq.
  destruct (foldM _ (minibatch_loss_list st.1) tr w) as [[losses | e] w1] eqn:Hfold;
    [| discriminate].
  apply (foldM_inv
           (λ pre (losses : list Q),
              length losses = length (minibatch_loss_list st.1) + length pre) _)
    with (pre := @nil (Tensor * list nat)) in Hfold; [| | simpl; lia].
  2: { clear. intros pre acc batch w acc' w' Hacc. rewrite bind_eq.
       destruct (train_batch self opt batch w) as [[loss | e] w1]; [| discriminate].
       intros [= <- <-]. rewrite !length_app, Hacc. simpl. lia. }
  simpl in Hfold. rewrite bind_eq.
  destruct (compute_accuracy self tr w1) as [[ta | e] w2]; [| discriminate].
  rewrite bind_eq.
  destruct (compute_accuracy self va w2) as [[va' | e] w3]; [| discriminate].
  rewrite bind_eq.
  destruct st.2 as [s |].
  - rewrite bind_eq.
    destruct (ReduceLROnPlateau_step s va' w3) as [[s' | e] w4]; [| discriminate].
    intros [= <- <-]. simpl. rewrite !length_app. simpl. lia.
  - intros [= <- <-]. simpl. rewrite !length_app. simpl. lia.
Qed.

Lemma train_model_inv self epochs tr va te opt dev li sched w history w' :
  train_model self epochs tr va te opt dev li sched w = (Ok history, w') →
  length (minibatch_loss_list history) = epochs * length tr ∧
  length (train_acc_list history) = epochs ∧
  length (valid_acc_list history) = epochs.
Proof.
  unfold train_model. rewrite bind_eq.
  destruct (foldM _ _ (seq 0 epochs) w) as [[st | e] w1] eqn:Hfold; [| discriminate].
  intros [= <- <-].
  apply (foldM_inv
           (λ pre (st : History * option ReduceLROnPlateau),
              length (minibatch_loss_list st.1) = length pre * length tr ∧
              length (train_acc_list st.1) = length pre ∧
              length (valid_acc_list st.1) = length pre) _)
    with (pre := @nil nat) in Hfold; [| | by simpl].
  - simpl in Hfold. by rewrite length_seq in Hfold.
  - clear. intros pre st epoch w st' w' (Hl & Hta & Hva) Hrun.
    apply train_epoch_inv in Hrun as (Hl' & Hta' & Hva').
    rewrite length_app. simpl. lia.
Qed.

(** ** The plateau scheduler, when it is stepped *)

Lemma ReduceLROnPlateau_step_nonincreasing s metrics w :
  (0 <= eps s)%Q → (lr (ReduceLROnPlateau_step s metrics w).2 <= lr w)%Q.
Proof.
  intros Heps. unfold ReduceLROnPlateau_step.
  case_bool_decide; [| apply Qle_refl].
  rewrite bind_eq. unfold reduce_lr. rewrite bind_eq. cbn [get_world].
  destruct (Qle_bool _ _) eqn:Hle; cbn [negb]; [apply Qle_refl |].
  cbn [set_lr bind get_world put_world ret lr snd].
  assert (¬ (lr w - Qmax (lr w * factor s) (min_lr s) <= eps s)%Q) as Hgt
    by (rewrite <- Qle_bool_iff; congruence).
  lra.
Qed.

(** ** Claims about training, evaluation and the script *)

(** C5, evaluated on the code: whatever the data and the accuracies, the
    learning rate is 1/10 when the script ends, because the scheduler the
    script constructs is not handed to [train_model]; stepped on a
    validation accuracy that stays at 98 for twelve epochs, that scheduler
    would have brought it to 1/100. *)
Theorem C5_learning_rate_never_scheduled argv cuda dl w :
  lr (main argv cuda dl w).2 = (1 # 10)%Q ∧
  lr (foldM ReduceLROnPlateau_step (ReduceLROnPlateau_init (1 # 10) ModeMax)
        (replicate 12 98%Q) (mkWorld (rng w) (params w) (grads w) (1 # 10))).2
  = (1 # 100)%Q.
Proof. split; [apply main_lr | reflexivity]. Qed.

(** C6: every run of [compute_confusion_matrix] that returns, returns 10
    rows of 10 counters in which the sum of each row is the number of
    examples whose true class is that row, and the sum of all counters is
    the number of examples; and on a test set of valid batches the run of a
    ten-class model does return, leaving the world as it was. *)
Theorem C6_confusion_matrix_sums g w0 self w1 loader dev w :
  LeNet5_init 10 g w0 = (Ok self, w1) →
  Forall (valid_batch (if default false g then 1 else 3) 10) loader →
  (∃ mat, compute_confusion_matrix self loader dev w = (Ok mat, w) ∧
          matrix_shape 10 10 mat ∧
          (∀ r, row_sum mat r = count_class r (all_targets loader)) ∧
          total_sum mat = length (all_targets loader)) ∧
  (∀ any_model any_loader any_dev wa mat wb,
     compute_confusion_matrix any_model any_loader any_dev wa = (Ok mat, wb) →
     matrix_shape 10 10 mat ∧
     (∀ r, row_sum mat r = count_class r (all_targets any_loader)) ∧
     total_sum mat = length (all_targets any_loader)).
Proof.
  intros Hinit Hl. destruct (LeNet5_init_inv _ _ _ _ _ Hinit) as (_ & _ & Harch).
  split; [exact (compute_confusion_matrix_Ok self _ loader dev w Harch Hl) |].
  intros any_model any_loader any_dev wa mat wb.
  apply compute_confusion_matrix_inv.
Qed.

(** C7: every run of [train_model] that returns, returns a loss history
    with one entry per epoch and training batch and accuracy histories with
    one entry per epoch; and on valid training and validation batches the
    run does return. *)
Theorem C7_history_lengths nc g w0 self w1 epochs tr va te opt dev li sched w :
  LeNet5_init nc g w0 = (Ok self, w1) →
  0 < nc →
  Forall (valid_batch (if default false g then 1 else 3) nc) tr →
  Forall (valid_batch (if default false g then 1 else 3) nc) va →
  (∃ history w',
     train_model self epochs tr va te opt dev li sched w = (Ok history, w') ∧
     length (minibatch_loss_list history) = epochs * length tr ∧
     length (train_acc_list history) = epochs ∧
     length (valid_acc_list history) = epochs) ∧
  (∀ any_model n tr' va' te' opt' dev' li' sched' wa history wb,
     train_model any_model n tr' va' te' opt' dev' li' sched' wa = (Ok history, wb) →
     length (minibatch_loss_list history) = n * length tr' ∧
     length (train_acc_list history) = n ∧
     length (valid_acc_list history) = n).
Proof.
  intros Hinit Hnc Htr Hva.
  destruct (LeNet5_init_inv _ _ _ _ _ Hinit) as (_ & _ & Harch).
  split;
    [exact (train_model_Ok self nc _ epochs tr va te opt dev li sched w Harch Hnc Htr Hva) |].
  intros any_model n tr' va' te' opt' dev' li' sched' wa history wb.
  apply train_model_inv.
Qed.

(** C8: the settings are the constants of the source, seed 123, batch size
    256, 15 epochs, and the device picked from the availability of CUDA; the
    argument vector changes neither them nor the run, which seeds the
    generator with 123 and asks the provider for batches of 256. *)
Theorem C8_configuration_fixed argv argv' cuda dl w :
  settings argv cuda = mkSettings 123 256 15 (if cuda then Cuda 0 else Cpu) ∧
  settings argv' cuda = settings argv cuda ∧
  main argv' cuda dl = main argv cuda dl ∧
  main argv cuda dl = main argv cuda (λ _, dl 256) ∧
  rng (set_all_seeds RANDOM_SEED w).2 = 123%N.
Proof.
  split; [destruct cuda; reflexivity |]. split; [reflexivity |].
  split; [unfold main; reflexivity |].
  split; [unfold main, BATCH_SIZE; cbv beta; reflexivity | reflexivity].
Qed.

End Verification.

(** * Concrete instances *)

(** A model built by the script's constructor call in the reference world. *)
Lemma reference_init :
  LeNet5_init (torch := Reference.lib) 10 (Some true) Reference.world0
  = (Ok Reference.lenet, Reference.world1).
Proof. reflexivity. Qed.

Lemma C1_witness :
  LeNet5_init (torch := Reference.lib) 10 (Some true) Reference.world0
  = (Ok Reference.lenet, Reference.world1) ∧
  shape (zeros [2; 1; 32; 32]) = [2; 1; 32; 32] ∧
  ∃ logits,
    forward (torch := Reference.lib) Reference.lenet (zeros [2; 1; 32; 32]) Reference.world1
    = (Ok logits, Reference.world1) ∧
    shape logits = [2; num_classes Reference.lenet] ∧
    num_classes Reference.lenet = 10 ∧ well_formed logits.
Proof.
  split; [reflexivity |]. split; [reflexivity |].
  apply (C1_forward_logits_shape (torch := Reference.lib) 10 (Some true)
           Reference.world0 Reference.lenet Reference.world1
           (zeros [2; 1; 32; 32]) 2 Reference.world1); reflexivity.
Defined.

Lemma C6_witness :
  LeNet5_init (torch := Reference.lib) 10 (Some true) Reference.world0
  = (Ok Reference.lenet, Reference.world1) ∧
  Forall (valid_batch 1 10) Reference.loader0 ∧
  ∃ mat,
    compute_confusion_matrix (torch := Reference.lib) Reference.lenet Reference.loader0
      Cpu Reference.world1 = (Ok mat, Reference.world1) ∧
    matrix_shape 10 10 mat ∧
    (∀ r, row_sum mat r = count_class r (all_targets Reference.loader0)) ∧
    total_sum mat = length (all_targets Reference.loader0).
Proof.
  split; [reflexivity |]. split; [repeat constructor; simpl; lia |].
  refine (proj1 (C6_confusion_matrix_sums (torch := Reference.lib) (Some true)
                   Reference.world0 Reference.lenet Reference.world1 Reference.loader0
                   Cpu Reference.world1 _ _));
    [reflexivity | repeat constructor; simpl; lia].
Defined.

Lemma C7_witness :
  LeNet5_init (torch := Reference.lib) 10 (Some true) Reference.world0
  = (Ok Reference.lenet, Reference.world1) ∧
  0 < 10 ∧
  Forall (valid_batch 1 10) Reference.loader0 ∧
  ∃ history w',
    train_model (torch := Reference.lib) Reference.lenet 15 Reference.loader0
      Reference.loader0 Reference.loader0 (mkSGD (parameters Reference.lenet)) Cpu 100
      None Reference.world1 = (Ok history, w') ∧
    length (minibatch_loss_list history) = 15 * length Reference.loader0 ∧
    length (train_acc_list history) = 15 ∧
    length (valid_acc_list history) = 15.
Proof.
  split; [reflexivity |]. split; [lia |].
  split; [repeat constructor; simpl; lia |].
  refine (proj1 (C7_history_lengths (torch := Reference.lib) 10 (Some true)
                   Reference.world0 Reference.lenet Reference.world1 15 Reference.loader0
                   Reference.loader0 Reference.loader0 (mkSGD (parameters Reference.lenet))
                   Cpu 100 None Reference.world1 _ _ _ _));
    [reflexivity | lia | repeat constructor; simpl; lia | repeat constructor; simpl; lia].
Defined.

Lemma C10_witness :
  LeNet5_init (torch := Reference.lib) 10 (Some true) Reference.world0
  = (Ok Reference.lenet, Reference.world1) ∧
  shape (zeros [2; 1; 32; 32]) = [2; 1; 32; 32] ∧
  shape (zeros [1; 1; 33; 40]) = [1; 1; 33; 40] ∧
  (∃ t u logits,
     Sequential_forward (torch := Reference.lib) (features Reference.lenet)
       (zeros [2; 1; 32; 32]) Reference.world1 = (Ok t, Reference.world1) ∧
     shape t = [2; 16; 5; 5] ∧
     flatten1 t = Ok u ∧ shape u = [2; 400] ∧
     head (map Module_layer (classifier Reference.lenet)) = Some (LinearL (16 * 5 * 5) 120) ∧
     forward (torch := Reference.lib) Reference.lenet (zeros [2; 1; 32; 32]) Reference.world1
     = (Ok logits, Reference.world1) ∧
     shape logits = [2; 10]) ∧
  ((feature_side 33 * feature_side 40 = 25 ∧
    ∃ logits,
      forward (torch := Reference.lib) Reference.lenet (zeros [1; 1; 33; 40]) Reference.world1
      = (Ok logits, Reference.world1) ∧ shape logits = [1; 10])
   ∨ (feature_side 33 * feature_side 40 ≠ 25 ∧
      forward (torch := Reference.lib) Reference.lenet (zeros [1; 1; 33; 40]) Reference.world1
      = (Raise RuntimeError, Reference.world1))).
Proof.
  split; [reflexivity |]. split; [reflexivity |]. split; [reflexivity |].
  apply (C10_feature_map_fits_classifier (torch := Reference.lib) 10
           Reference.world0 Reference.lenet Reference.world1
           (zeros [2; 1; 32; 32]) 2 (zeros [1; 1; 33; 40]) 1 33 40 Reference.world1);
    reflexivity.
Defined.

(** The second half of C10 as stated fails: a 33x33 batch is not 32x32, and
    the forward pass returns logits for it. *)
Lemma C10_counterexample :
  (33, 33) ≠ (32, 32) ∧
  ∃ logits,
    forward (torch := Reference.lib) Reference.lenet (zeros [1; 1; 33; 33]) Reference.world1
    = (Ok logits, Reference.world1) ∧
    shape logits = [1; 10].
Proof.
  split; [intros [=] |].
  destruct (forward_cases (torch := Reference.lib) Reference.lenet 10 true
              (zeros [1; 1; 33; 33]) 1 1 33 33 Reference.world1 eq_refl eq_refl)
    as [(_ & _ & logits & Hl & Hs & _) | (Hn & _)].
  - exists logits. split; assumption.
  - exfalso. apply Hn. split; reflexivity.
Qed.

(** * More of the script *)

Section MoreOfTheModel.
Context {torch : TorchLib}.

(** ** Which inputs the forward pass accepts *)

Lemma mul_eq_25 a b :
  a * b = 25 ↔ (a = 1 ∧ b = 25) ∨ (a = 5 ∧ b = 5) ∨ (a = 25 ∧ b = 1).
Proof.
  split; [| intros [[-> ->] | [[-> ->] | [-> ->]]]; reflexivity].
  intros Hab. assert (a ≤ 25) as Ha.
  { destruct b as [| b]; [rewrite Nat.mul_0_r in Hab; lia |].
    rewrite Nat.mul_succ_r in Hab. lia. }
  do 26 (destruct a as [| a]; [lia |]). lia.
Qed.

Lemma feature_side_1 h : feature_side h = 1 ↔ 16 ≤ h ≤ 19.
Proof. unfold feature_side. lia. Qed.

Lemma feature_side_5 h : feature_side h = 5 ↔ 32 ≤ h ≤ 35.
Proof. unfold feature_side. lia. Qed.

Lemma feature_side_25 h : feature_side h = 25 ↔ 112 ≤ h ≤ 115.
Proof. unfold feature_side. lia. Qed.

Lemma accepted_size_spec h w :
  feature_side h * feature_side w = 25 ↔ accepted_size h w.
Proof.
  rewrite mul_eq_25, !feature_side_1, !feature_side_5, !feature_side_25.
  unfold accepted_size. tauto.
Qed.


(** X1: A model built by the constructor, on a four-dimensional batch with the
    channel count it expects, returns logits exactly for the image sizes of
    [accepted_size] (sides 32 to 35, or 16 to 19 by 112 to 115) and raises a
    [RuntimeError] for every other size. *)
Theorem forward_accepts_iff_size nc g w0 self w1 x n h w wd :
  LeNet5_init nc g w0 = (Ok self, w1) →
  shape x = [n; if default false g then 1 else 3; h; w] →
  (accepted_size h w ∧
   ∃ logits, forward self x wd = (Ok logits, wd) ∧ shape logits = [n; nc])
  ∨ (¬ accepted_size h w ∧ forward self x wd = (Raise RuntimeError, wd)).
Proof.
  intros Hinit Hs. destruct (LeNet5_init_inv _ _ _ _ _ Hinit) as (_ & _ & Harch).
  destruct (forward_cases self nc _ x n _ h w wd Harch Hs)
    as [(_ & Hfs & logits & Hl & Hsl & _) | (Hn & Hr)].
  - left. split; [by apply accepted_size_spec |]. exists logits. split; assumption.
  - right. split; [| exact Hr]. intros Hacc. apply Hn.
    split; [reflexivity | by apply accepted_size_spec].
Qed.


(** X3: A batch whose channel count is not the one the model was built for is
    rejected with a [RuntimeError], whatever its spatial size. *)
Theorem forward_rejects_channels nc g w0 self w1 x n c h w wd :
  LeNet5_init nc g w0 = (Ok self, w1) →
  shape x = [n; c; h; w] →
  c ≠ (if default false g then 1 else 3) →
  forward self x wd = (Raise RuntimeError, wd).
Proof.
  intros Hinit Hs Hc. destruct (LeNet5_init_inv _ _ _ _ _ Hinit) as (_ & _ & Harch).
  destruct (forward_cases self nc _ x n c h w wd Harch Hs)
    as [(Hc' & _) | (_ & Hr)]; [contradiction | exact Hr].
Qed.

(** ** What the constructor allocates *)

Lemma new_parameter_exact s w :
  new_parameter s w =
  (Ok (length (params w)),
   mkWorld (sample (rng w) s).2 (params w ++ [(sample (rng w) s).1])
     (grads w ++ [zeros s]) (lr w)).
Proof. reflexivity. Qed.

Lemma Conv2d_init_exact cin cout k w :
  ∃ t1 t2 w',
    Conv2d_init cin cout k w =
    (Ok (Conv2d cin cout k (length (params w)) (S (length (params w)))), w') ∧
    params w' = params w ++ [t1; t2] ∧ lr w' = lr w.
Proof.
  unfold Conv2d_init. rewrite bind_eq, new_parameter_exact. cbv beta iota.
  rewrite bind_eq, new_parameter_exact. cbv beta iota. cbn [params lr].
  rewrite length_app, Nat.add_1_r. cbn [length]. do 3 eexists.
  split; [reflexivity |]. split; [by rewrite <- app_assoc | reflexivity].
Qed.

Lemma Linear_init_exact fin fout w :
  ∃ t1 t2 w',
    Linear_init fin fout w =
    (Ok (Linear fin fout (length (params w)) (S (length (params w)))), w') ∧
    params w' = params w ++ [t1; t2] ∧ lr w' = lr w.
Proof.
  unfold Linear_init. rewrite bind_eq, new_parameter_exact. cbv beta iota.
  rewrite bind_eq, new_parameter_exact. cbv beta iota. cbn [params lr].
  rewrite length_app, Nat.add_1_r. cbn [length]. do 3 eexists.
  split; [reflexivity |]. split; [by rewrite <- app_assoc | reflexivity].
Qed.

Lemma LeNet5_init_exact nc g w self w' :
  LeNet5_init nc g w = (Ok self, w') →
  ∃ new, params w' = params w ++ new ∧ length new = 10 ∧
         parameters self = seq (length (params w)) 10 ∧ lr w' = lr w.
Proof.
  unfold LeNet5_init.
  destruct (Conv2d_init_exact (if default false g then 1 else 3) 6 5 w)
    as (a1 & a2 & w1 & E1 & P1 & L1).
  destruct (Conv2d_init_exact 6 16 5 w1) as (a3 & a4 & w2 & E2 & P2 & L2).
  destruct (Linear_init_exact (16 * 5 * 5) 120 w2) as (a5 & a6 & w3 & E3 & P3 & L3).
  destruct (Linear_init_exact 120 84 w3) as (a7 & a8 & w4 & E4 & P4 & L4).
  destruct (Linear_init_exact 84 nc w4) as (a9 & a10 & w5 & E5 & P5 & L5).
  rewrite bind_eq, E1. cbv beta iota. rewrite bind_eq, E2. cbv beta iota.
  rewrite bind_eq, E3. cbv beta iota. rewrite bind_eq, E4. cbv beta iota.
  rewrite bind_eq, E5. cbv beta iota. unfold ret. intros [= <- <-].
  exists [a1; a2; a3; a4; a5; a6; a7; a8; a9; a10].
  split; [rewrite P5, P4, P3, P2, P1, <- !app_assoc; reflexivity |].
  split; [reflexivity |]. split; [| congruence].
  unfold parameters. cbn [features classifier app map Module_parameters concat seq].
  rewrite P4, P3, P2, P1, !length_app. cbn [length].
  repeat (f_equal; try lia).
Qed.

(** X4: The constructor appends exactly ten parameter tensors to the store and
    changes none that was there; the model refers to these ten, in order
    and without repetition; the learning rate is untouched. *)
Theorem constructor_allocates_fresh nc g w self w' :
  LeNet5_init nc g w = (Ok self, w') →
  (∃ new, params w' = params w ++ new ∧ length new = 10) ∧
  parameters self = seq (length (params w)) 10 ∧
  NoDup (parameters self) ∧
  (∀ r, r < length (params w) → params w' !! r = params w !! r) ∧
  lr w' = lr w.
Proof.
  intros Hinit. destruct (LeNet5_init_exact nc g w self w' Hinit)
    as (new & Hp & Hlen & Hrefs & Hlr).
  split; [exists new; split; assumption |]. split; [exact Hrefs |].
  split; [rewrite Hrefs; apply NoDup_seq |]. split; [| exact Hlr].
  intros r Hr. rewrite Hp. by apply lookup_app_l.
Qed.

(** X5: Two models built one after the other share no parameter, and building
    the second leaves the tensors of the first as they were. *)
Theorem two_models_share_nothing nc1 g1 nc2 g2 w m1 w1 m2 w2 :
  LeNet5_init nc1 g1 w = (Ok m1, w1) →
  LeNet5_init nc2 g2 w1 = (Ok m2, w2) →
  (∀ r, r ∈ parameters m1 → r ∉ parameters m2) ∧
  (∀ r, r ∈ parameters m1 → params w2 !! r = params w1 !! r).
Proof.
  intros H1 H2.
  destruct (LeNet5_init_exact nc1 g1 w m1 w1 H1) as (new1 & Hp1 & Hl1 & Hr1 & _).
  destruct (LeNet5_init_exact nc2 g2 w1 m2 w2 H2) as (new2 & Hp2 & Hl2 & Hr2 & _).
  assert (∀ r, r ∈ parameters m1 → r < length (params w1)) as Hlt.
  { intros r. rewrite Hr1, elem_of_seq, Hp1, length_app. lia. }
  split; intros r Hr; specialize (Hlt r Hr).
  - rewrite Hr2, elem_of_seq. lia.
  - rewrite Hp2. by apply lookup_app_l.
Qed.

End MoreOfTheModel.

Section MoreOfTheOptimizer.
Context {torch : TorchLib}.

(** ** The optimizer step *)

Lemma SGD_step_eq opt w :
  SGD_step opt w =
  (Ok tt,
   mkWorld (rng w)
     (foldl (λ ps r,
               match ps !! r with
               | Some p => <[r := sgd_update (lr w) p (nth r (grads w) (zeros []))]> ps
               | None => ps
               end)
            (params w) (param_refs opt))
     (grads w) (lr w)).
Proof. reflexivity. Qed.

Lemma foldl_update_length (f : nat → Tensor → Tensor) (refs : list nat) (ps : list Tensor) :
  length (foldl (λ (ps : list Tensor) (r : nat), match ps !! r with
                         | Some p => <[r := f r p]> ps
                         | None => ps
                         end) ps refs) = length ps.
Proof.
  revert ps. induction refs as [| r0 refs IH]; intros ps; [done |].
  cbn [foldl]. rewrite IH. destruct (ps !! r0); [apply length_insert | done].
Qed.

Lemma foldl_update_frame (f : nat → Tensor → Tensor) (refs : list nat) (ps : list Tensor) (r : nat) :
  r ∉ refs →
  foldl (λ (ps : list Tensor) (r : nat), match ps !! r with
                 | Some p => <[r := f r p]> ps
                 | None => ps
                 end) ps refs !! r = ps !! r.
Proof.
  revert ps. induction refs as [| r0 refs IH]; intros ps Hr; [done |].
  apply not_elem_of_cons in Hr as [Hne Hr]. cbn [foldl]. rewrite IH by exact Hr.
  destruct (ps !! r0); [by apply list_lookup_insert_ne | done].
Qed.


Lemma foldl_update_shape (f : nat → Tensor → Tensor) (refs : list nat) (ps : list Tensor) (r : nat) :
  (∀ r p, shape (f r p) = shape p) →
  shape <$> (foldl (λ (ps : list Tensor) (r : nat), match ps !! r with
                            | Some p => <[r := f r p]> ps
                            | None => ps
                            end) ps refs !! r) = shape <$> (ps !! r).
Proof.
  intros Hf. revert ps. induction refs as [| r0 refs IH]; intros ps; [done |].
  cbn [foldl]. rewrite IH. destruct (ps !! r0) as [p |] eqn:Hp; [| done].
  destruct (decide (r = r0)) as [-> | Hne].
  - rewrite list_lookup_insert_eq by (by eapply lookup_lt_Some).
    rewrite Hp. simpl. by rewrite Hf.
  - by rewrite list_lookup_insert_ne.
Qed.




(** X7: Whatever the optimizer refers to, a step returns, keeps the number of
    stored tensors and the shape of each, leaves every tensor it does not
    refer to as it was, and touches neither gradients, learning rate nor
    generator. *)
Theorem optimizer_step_frame opt w r :
  ∃ w',
    SGD_step opt w = (Ok tt, w') ∧
    length (params w') = length (params w) ∧
    shape <$> (params w' !! r) = shape <$> (params w !! r) ∧
    (r ∉ param_refs opt → params w' !! r = params w !! r) ∧
    grads w' = grads w ∧ lr w' = lr w ∧ rng w' = rng w.
Proof.
  rewrite SGD_step_eq. eexists. split; [reflexivity |]. cbn [params grads lr rng].
  split; [apply (foldl_update_length
                   (λ r p, sgd_update (lr w) p (nth r (grads w) (zeros [])))) |].
  split; [by apply (foldl_update_shape
                      (λ r p, sgd_update (lr w) p (nth r (grads w) (zeros [])))) |].
  split; [| done].
  apply (foldl_update_frame
           (λ r p, sgd_update (lr w) p (nth r (grads w) (zeros [])))).
Qed.

End MoreOfTheOptimizer.

(** ** The scheduler of the script, had it been stepped *)

Section MoreOfTheScheduler.












End MoreOfTheScheduler.

(** ** The input pipeline *)

Section MoreOfThePipeline.
Context {torch : TorchLib}.

Lemma item_lookup t i : item t i = default 0%Q (data t !! i).
Proof. unfold item. apply nth_lookup. Qed.

Lemma imap_pointwise {A B} (g : A → B) (l : list A) : imap (λ _, g) l = map g l.
Proof. induction l as [| a l IH]; [done |]. cbn [imap map]. f_equal. exact IH. Qed.

Lemma resize_transform_eq Resize img :
  resize_transform Resize img =
  Ok (mkTensor [1; height (Resize (32, 32) img); width (Resize (32, 32) img)]
        (map (λ b, ((inject_Z (Z.of_N (Byte.to_N b)) / 255 - (1 # 2)) / (1 # 2))%Q)
             (pixels (Resize (32, 32) img)))).
Proof.
  unfold resize_transform, Normalize, ToTensor. cbn [shape data].
  change (reverse [1; height (Resize (32, 32) img); width (Resize (32, 32) img)])
    with [width (Resize (32, 32) img); height (Resize (32, 32) img); 1].
  cbn [existsb length]. change (Qeq_bool (1 # 2) 0) with false.
  cbn [orb negb andb]. change (broadcastable 1 1) with true. cbn [andb negb].
  f_equal. f_equal.
  rewrite (imap_ext _ (λ _ v, ((v - (1 # 2)) / (1 # 2))%Q)) by reflexivity.
  rewrite imap_pointwise, map_map. reflexivity.
Qed.

Lemma normalized_pixel_range (b : Byte.byte) :
  (-1 <= (inject_Z (Z.of_N (Byte.to_N b)) / 255 - (1 # 2)) / (1 # 2) <= 1)%Q.
Proof.
  assert (0 <= inject_Z (Z.of_N (Byte.to_N b)))%Q as Hlo
    by (change 0%Q with (inject_Z 0); rewrite <- Zle_Qle; lia).
  assert (inject_Z (Z.of_N (Byte.to_N b)) <= 255)%Q as Hhi.
  { change 255%Q with (inject_Z 255). rewrite <- Zle_Qle.
    pose proof (Byte.to_N_bounded b). lia. }
  unfold Qdiv. change (/ 255)%Q with (1 # 255)%Q. change (/ (1 # 2))%Q with 2%Q.
  lra.
Qed.

(** X11: The transform of the script never raises: whatever the interpolation
    returns, the result is a one-channel tensor of that height and width
    with one value per pixel, each pixel [b] sent to [(b/255 - 1/2) / (1/2)],
    and every value lies between -1 and 1. *)
Theorem resize_transform_normalizes Resize img :
  ∃ t,
    resize_transform Resize img = Ok t ∧
    shape t = [1; height (Resize (32, 32) img); width (Resize (32, 32) img)] ∧
    length (data t) = length (pixels (Resize (32, 32) img)) ∧
    (∀ i b, pixels (Resize (32, 32) img) !! i = Some b →
            item t i = ((inject_Z (Z.of_N (Byte.to_N b)) / 255 - (1 # 2)) / (1 # 2))%Q) ∧
    (∀ i, (-1 <= item t i <= 1)%Q).
Proof.
  eexists. split; [apply resize_transform_eq |]. cbn [shape data].
  split; [reflexivity |]. split; [apply length_map |].
  split.
  - intros i b Hb. rewrite item_lookup. cbn [data].
    rewrite list_lookup_fmap, Hb. reflexivity.
  - intros i. rewrite item_lookup. cbn [data]. rewrite list_lookup_fmap.
    destruct (pixels (Resize (32, 32) img) !! i) as [b |]; cbn [fmap option_fmap option_map default];
      [apply normalized_pixel_range | lra].
Qed.


(** X12: The transform and the model of the script fit together: a batch of
    transformed images has the single channel the model was built for, and
    the model returns ten logits per image exactly when the interpolation
    delivers an accepted size (32 by 32 is one); for any other size the
    forward pass raises. *)
Theorem pipeline_output_fits_model Resize img t w0 self w1 x n wd :
  model w0 = (Ok self, w1) →
  resize_transform Resize img = Ok t →
  shape x = n :: shape t →
  (accepted_size (height (Resize (32, 32) img)) (width (Resize (32, 32) img)) ∧
   ∃ logits, forward self x wd = (Ok logits, wd) ∧ shape logits = [n; 10])
  ∨ (¬ accepted_size (height (Resize (32, 32) img)) (width (Resize (32, 32) img)) ∧
     forward self x wd = (Raise RuntimeError, wd)).
Proof.
  unfold model. intros Hinit Ht Hs.
  rewrite resize_transform_eq in Ht. injection Ht as <-. cbn [shape] in Hs.
  destruct (LeNet5_init_inv _ _ _ _ _ Hinit) as (_ & _ & Harch).
  destruct (forward_cases self 10 _ x n _ _ _ wd Harch Hs)
    as [(_ & Hfs & logits & Hl & Hsl & _) | (Hn & Hr)].
  - left. split; [by apply accepted_size_spec |]. exists logits. split; assumption.
  - right. split; [| exact Hr]. intros Hacc. apply Hn.
    split; [reflexivity | by apply accepted_size_spec].
Qed.

(** ** The script from top to bottom *)

Lemma main_eq argv cuda dl w self w1 :
  model (mkWorld RANDOM_SEED (params w) (grads w) (lr w)) = (Ok self, w1) →
  main argv cuda dl w =
  (history <- train_model self NUM_EPOCHS (dl BATCH_SIZE).1.1 (dl BATCH_SIZE).1.2
                (dl BATCH_SIZE).2 (mkSGD (parameters self)) (DEVICE cuda) 100 None ;;
   mat <- compute_confusion_matrix self (dl BATCH_SIZE).2 Cpu ;;
   ret (history, mat)) (mkWorld (rng w1) (params w1) (grads w1) (1 # 10)).
Proof.
  intros Hmodel. unfold main. rewrite bind_eq.
  change (set_all_seeds RANDOM_SEED w)
    with (Ok tt, mkWorld RANDOM_SEED (params w) (grads w) (lr w)).
  cbv beta iota. rewrite bind_eq, Hmodel. cbv beta iota. rewrite bind_eq.
  change (SGD_init (parameters self) (1 # 10) w1)
    with (Ok (mkSGD (parameters self)), mkWorld (rng w1) (params w1) (grads w1) (1 # 10)).
  cbv beta iota. reflexivity.
Qed.

(** X13: On training, validation and test sources made of 32 by 32 one-channel
    batches with labels below ten, the whole script returns: fifteen epochs
    of histories (one loss per training batch and epoch, one accuracy of
    each kind per epoch), a 10 by 10 confusion matrix whose rows count the
    test labels, and a learning rate still at 1/10.  The training and
    evaluation loops are the helpers as the specification describes them. *)
Theorem script_completes argv cuda (dl : nat → DataLoader * DataLoader * DataLoader) w :
  Forall (valid_batch 1 10) (dl 256).1.1 →
  Forall (valid_batch 1 10) (dl 256).1.2 →
  Forall (valid_batch 1 10) (dl 256).2 →
  ∃ history mat w',
    main argv cuda dl w = (Ok (history, mat), w') ∧
    length (minibatch_loss_list history) = 15 * length (dl 256).1.1 ∧
    length (train_acc_list history) = 15 ∧
    length (valid_acc_list history) = 15 ∧
    matrix_shape 10 10 mat ∧
    (∀ r, row_sum mat r = count_class r (all_targets (dl 256).2)) ∧
    total_sum mat = length (all_targets (dl 256).2) ∧
    lr w' = (1 # 10)%Q.
Proof.
  intros Htr Hva Hte.
  destruct (LeNet5_init_architecture 10 (Some true)
              (mkWorld RANDOM_SEED (params w) (grads w) (lr w)))
    as (self & w1 & Hmodel & _ & _ & Harch).
  pose proof (main_lr argv cuda dl w) as Hlr. revert Hlr.
  rewrite (main_eq argv cuda dl w self w1 Hmodel).
  set (w2 := mkWorld (rng w1) (params w1) (grads w1) (1 # 10)).
  rewrite bind_eq.
  match goal with
  | |- context [train_model self ?e ?tr ?va ?te ?opt ?dev ?li None w2] =>
      destruct (train_model_Ok self 10 true e tr va te opt dev li None w2
                  Harch ltac:(lia) Htr Hva)
        as (history & w3 & Hrun & Hl1 & Hl2 & Hl3)
  end.
  rewrite Hrun. cbv beta iota. rewrite bind_eq.
  match goal with
  | |- context [compute_confusion_matrix self ?te ?dev w3] =>
      destruct (compute_confusion_matrix_Ok self true te dev w3 Harch Hte)
        as (mat & Hmat & Hshape & Hrows & Htotal)
  end.
  rewrite Hmat. cbv beta iota.
  cbn [ret snd]. intros Hlr.
  exists history, mat, w3. split; [reflexivity |].
  split; [exact Hl1 |]. split; [exact Hl2 |]. split; [exact Hl3 |].
  split; [exact Hshape |]. split; [exact Hrows |]. split; [exact Htotal | exact Hlr].
Qed.


End MoreOfThePipeline.

(** * Concrete instances of the further properties *)

Lemma forward_accepts_iff_size_witness :
  LeNet5_init (torch := Reference.lib) 10 (Some true) Reference.world0
  = (Ok Reference.lenet, Reference.world1) ∧
  shape (zeros [2; 1; 34; 33]) = [2; 1; 34; 33] ∧
  ((accepted_size 34 33 ∧
    ∃ logits,
      forward (torch := Reference.lib) Reference.lenet (zeros [2; 1; 34; 33]) Reference.world1
      = (Ok logits, Reference.world1) ∧ shape logits = [2; 10])
   ∨ (¬ accepted_size 34 33 ∧
      forward (torch := Reference.lib) Reference.lenet (zeros [2; 1; 34; 33]) Reference.world1
      = (Raise RuntimeError, Reference.world1))).
Proof.
  split; [reflexivity |]. split; [reflexivity |].
  apply (forward_accepts_iff_size (torch := Reference.lib) 10 (Some true)
           Reference.world0 Reference.lenet Reference.world1
           (zeros [2; 1; 34; 33]) 2 34 33 Reference.world1); reflexivity.
Defined.


Lemma forward_rejects_channels_witness :
  LeNet5_init (torch := Reference.lib) 10 (Some true) Reference.world0
  = (Ok Reference.lenet, Reference.world1) ∧
  shape (zeros [2; 3; 32; 32]) = [2; 3; 32; 32] ∧
  3 ≠ 1 ∧
  forward (torch := Reference.lib) Reference.lenet (zeros [2; 3; 32; 32]) Reference.world1
  = (Raise RuntimeError, Reference.world1).
Proof.
  split; [reflexivity |]. split; [reflexivity |]. split; [lia |].
  apply (forward_rejects_channels (torch := Reference.lib) 10 (Some true)
           Reference.world0 Reference.lenet Reference.world1
           (zeros [2; 3; 32; 32]) 2 3 32 32 Reference.world1);
    [reflexivity | reflexivity | simpl; lia].
Defined.

Lemma constructor_allocates_fresh_witness :
  LeNet5_init (torch := Reference.lib) 10 (Some true) Reference.world0
  = (Ok Reference.lenet, Reference.world1) ∧
  (∃ new, params Reference.world1 = params Reference.world0 ++ new ∧ length new = 10) ∧
  parameters Reference.lenet = seq (length (params Reference.world0)) 10 ∧
  NoDup (parameters Reference.lenet) ∧
  (∀ r, r < length (params Reference.world0) →
        params Reference.world1 !! r = params Reference.world0 !! r) ∧
  lr Reference.world1 = lr Reference.world0.
Proof.
  split; [reflexivity |].
  apply (constructor_allocates_fresh (torch := Reference.lib) 10 (Some true)
           Reference.world0 Reference.lenet Reference.world1); reflexivity.
Defined.

Lemma two_models_share_nothing_witness :
  LeNet5_init (torch := Reference.lib) 10 (Some true) Reference.world0
  = (Ok Reference.lenet, Reference.world1) ∧
  LeNet5_init (torch := Reference.lib) 10 (Some true) Reference.world1
  = (Ok ReferenceData.lenet2, ReferenceData.world2) ∧
  (∀ r, r ∈ parameters Reference.lenet → r ∉ parameters ReferenceData.lenet2) ∧
  (∀ r, r ∈ parameters Reference.lenet →
        params ReferenceData.world2 !! r = params Reference.world1 !! r).
Proof.
  split; [reflexivity |]. split; [reflexivity |].
  apply (two_models_share_nothing (torch := Reference.lib) 10 (Some true) 10 (Some true)
           Reference.world0 Reference.lenet Reference.world1
           ReferenceData.lenet2 ReferenceData.world2); reflexivity.
Defined.





Lemma pipeline_output_fits_model_witness :
  model (torch := Reference.lib) Reference.world0 = (Ok Reference.lenet, Reference.world1) ∧
  resize_transform ReferenceData.black ReferenceData.digit
  = Ok ReferenceData.normalized_black ∧
  shape (zeros [2; 1; 32; 32]) = 2 :: shape ReferenceData.normalized_black ∧
  ((accepted_size (height (ReferenceData.black (32, 32) ReferenceData.digit))
      (width (ReferenceData.black (32, 32) ReferenceData.digit)) ∧
    ∃ logits,
      forward (torch := Reference.lib) Reference.lenet (zeros [2; 1; 32; 32]) Reference.world1
      = (Ok logits, Reference.world1) ∧ shape logits = [2; 10])
   ∨ (¬ accepted_size (height (ReferenceData.black (32, 32) ReferenceData.digit))
          (width (ReferenceData.black (32, 32) ReferenceData.digit)) ∧
      forward (torch := Reference.lib) Reference.lenet (zeros [2; 1; 32; 32]) Reference.world1
      = (Raise RuntimeError, Reference.world1))).
Proof.
  split; [reflexivity |]. split; [vm_compute; reflexivity |]. split; [reflexivity |].
  apply (pipeline_output_fits_model (torch := Reference.lib) ReferenceData.black
           ReferenceData.digit ReferenceData.normalized_black Reference.world0
           Reference.lenet Reference.world1 (zeros [2; 1; 32; 32]) 2 Reference.world1);
    [reflexivity | vm_compute; reflexivity | reflexivity].
Defined.

Lemma script_completes_witness :
  Forall (valid_batch 1 10) (ReferenceData.loaders 256).1.1 ∧
  Forall (valid_batch 1 10) (ReferenceData.loaders 256).1.2 ∧
  Forall (valid_batch 1 10) (ReferenceData.loaders 256).2 ∧
  ∃ history mat w',
    main (torch := Reference.lib) [] false ReferenceData.loaders Reference.world0
    = (Ok (history, mat), w') ∧
    length (minibatch_loss_list history) = 15 * length (ReferenceData.loaders 256).1.1 ∧
    length (train_acc_list history) = 15 ∧
    length (valid_acc_list history) = 15 ∧
    matrix_shape 10 10 mat ∧
    (∀ r, row_sum mat r = count_class r (all_targets (ReferenceData.loaders 256).2)) ∧
    total_sum mat = length (all_targets (ReferenceData.loaders 256).2) ∧
    lr w' = (1 # 10)%Q.
Proof.
  split; [repeat constructor; simpl; lia |].
  split; [repeat constructor; simpl; lia |].
  split; [repeat constructor; simpl; lia |].
  apply (script_completes (torch := Reference.lib) [] false ReferenceData.loaders
           Reference.world0); repeat constructor; simpl; lia.
Defined.

